(** * Expense tracker: the ledger engine of [index.js]

    A shallow embedding of the command-line expense tracker and the
    properties of its ledger: identifier assignment, deletion with
    renumbering, monthly totals, the budget warning and the CSV export.

    Conventions of the embedding.
    - Identifiers and month numbers are JavaScript numbers that only ever
      hold small integers; they are modelled as [Z].
    - Amounts are JavaScript numbers holding fractions; they are modelled as
      IEEE 754 binary64 values ([float]), with the primitive operations.
    - The two JSON files and the exported CSV file form the [Disk]; every
      command is a function from a disk to a result, a disk and the lines it
      printed.
    - The amount reaches [addExpense] as the number the [--amount] text
      denotes.
    - A file that parses holds what was saved: [JSON.stringify] and
      [JSON.parse] are inverse on records with finite amounts. (An infinite
      amount is written as [null]; the model keeps the number.) *)

From Stdlib Require Import ZArith List String Ascii Bool Floats Lia.
From Stdlib Require Import DecimalString DecimalZ.
Import ListNotations.

Set Warnings "-inexact-float".

Local Open Scope Z_scope.

(** ** Data model *)

(** One element of the array in [expenses.json]. *)
Record Expense := mkExpense {
  id : Z;
  category : string;
  date : string;
  amount : float;
  description : string
}.

(** The object in [config.json]; [monthlyBudget] is [None] when the object
    has no such field ([undefined]). *)
Record Config := mkConfig {
  monthlyBudget : option float
}.

(** What [fs.existsSync] and [JSON.parse] find for one file. *)
Inductive File (A : Type) : Type :=
| Missing
| Unparsable
| Parsed (a : A).

Arguments Missing {A}.
Arguments Unparsable {A}.
Arguments Parsed {A} a.

Record Disk := mkDisk {
  expenses_json : File (list Expense);
  config_json : File Config;
  expenses_csv : option string
}.

(** The lines the program prints, one constructor per [console.log] or
    [console.error] call of the commands. *)
Inductive Line :=
| ConfigParseError
| ExpensesParseError
| InvalidAmount
| BudgetWarning (budget : option float)
| Added (newId : Z)
| TotalAll (total : float)
| TotalMonth (month : Z) (total : float)
| InvalidMonth
| NotFound (targetId : Z)
| Deleted (targetId : Z)
| InvalidBudget
| BudgetSet (budget : float)
| NothingToExport
| Exported
| InvalidCategory
| AddUsage
| CategoryMissing.

(** What [new Date()] gives [addExpense]: the day part of [toISOString()]
    and the value of [getMonth()]. *)
Record Today := mkToday {
  isoDate : string;
  monthIndex : Z
}.

(** The part of the JavaScript runtime that depends on where the program
    runs: [getMonth s] is [new Date(s).getMonth()], the month index in the
    local time zone, and [None] for an invalid date. *)
Class Host := mkHost {
  getMonth : string -> option Z
}.

(** ** Commands: state and output threaded through the calls *)

Definition Run (A : Type) : Type := Disk -> A * Disk * list Line.

Definition ret {A} (a : A) : Run A := fun d => (a, d, []).

Definition bind {A B} (m : Run A) (k : A -> Run B) : Run B :=
  fun d =>
    let '(a, d1, out1) := m d in
    let '(b, d2, out2) := k a d1 in
    (b, d2, out1 ++ out2).

Declare Scope run_scope.
Delimit Scope run_scope with run.
Notation "x <- m ;; k" := (bind m (fun x => k))
  (at level 61, m at next level, right associativity) : run_scope.
Notation "m ;; k" := (bind m (fun _ => k))
  (at level 61, right associativity) : run_scope.

Definition log (l : Line) : Run unit := fun d => (tt, d, [l]).

Definition readExpensesFile : Run (File (list Expense)) :=
  fun d => (expenses_json d, d, []).

Definition readConfigFile : Run (File Config) :=
  fun d => (config_json d, d, []).

Definition result {A} (r : A * Disk * list Line) : A := fst (fst r).
Definition disk_of {A} (r : A * Disk * list Line) : Disk := snd (fst r).
Definition output {A} (r : A * Disk * list Line) : list Line := snd r.

Local Open Scope run_scope.

(** [saveConfig], [saveExpenses]: overwrite the file. *)
Definition saveConfig (config : Config) : Run unit :=
  fun d => (tt, mkDisk (expenses_json d) (Parsed config) (expenses_csv d), []).

Definition saveExpenses (expenses : list Expense) : Run unit :=
  fun d => (tt, mkDisk (Parsed expenses) (config_json d) (expenses_csv d), []).

Definition writeCSV (text : string) : Run unit :=
  fun d => (tt, mkDisk (expenses_json d) (config_json d) (Some text), []).

Definition defaultConfig : Config := mkConfig (Some 0%float).

(** [loadConfig]: the parsed object; the empty object after a parse error;
    a missing file is created with the default budget. *)
Definition loadConfig : Run Config :=
  f <- readConfigFile ;;
  match f with
  | Parsed config => ret config
  | Unparsable => log ConfigParseError ;; ret (mkConfig None)
  | Missing => saveConfig defaultConfig ;; ret defaultConfig
  end.

(** [loadExpenses]: the parsed array, or the empty array. *)
Definition loadExpenses : Run (list Expense) :=
  f <- readExpensesFile ;;
  match f with
  | Parsed expenses => ret expenses
  | Unparsable => log ExpensesParseError ;; ret []
  | Missing => ret []
  end.

(** The ledger a command sees on a disk. *)
Definition ledger (d : Disk) : list Expense := result (loadExpenses d).

(** ** The engine *)

Definition setId (e : Expense) (i : Z) : Expense :=
  mkExpense i (category e) (date e) (amount e) (description e).

(** [isNaN(amount) || amount <= 0] *)
Definition invalidAmount (x : float) : bool :=
  is_nan x || (x <=? 0)%float.

(** [parseFloat] of a number: the number itself, and 0 for -0. *)
Definition parseFloat (x : float) : float :=
  if (x =? 0)%float then 0%float else x.

(** [expenses.length > 0 ? expenses[expenses.length - 1].id + 1 : 1] *)
Definition nextId (expenses : list Expense) : Z :=
  match expenses with
  | [] => 1
  | e :: rest => id (last rest e) + 1
  end.

(** [x > config.monthlyBudget]; false when the budget is [undefined]. *)
Definition exceeds (x : float) (budget : option float) : bool :=
  match budget with
  | Some b => (b <? x)%float
  | None => false
  end.

Section Engine.
Context `{Host}.

(** [new Date(expense.date).getMonth() + 1 === targetMonth], where
    [targetMonth] is [parseInt(month)], the month itself when it is an
    integer. *)
Definition inMonth (targetMonth : Z) (expense : Expense) : bool :=
  match getMonth (date expense) with
  | Some m => m + 1 =? targetMonth
  | None => false
  end.

Definition computeExpenses (month : Z) (expenses : list Expense) : float :=
  fold_left (fun sum expense => (sum + amount expense)%float)
            (filter (inMonth month) expenses) 0%float.

Definition addExpense (now : Today) (amount_ : float)
    (description category : string) : Run unit :=
  expenses <- loadExpenses ;;
  let expensesID := nextId expenses in
  if invalidAmount amount_ then log InvalidAmount
  else
    let newExpense :=
      mkExpense expensesID category (isoDate now) (parseFloat amount_)
                description in
    config <- loadConfig ;;
    let month := monthIndex now + 1 in
    let totalExpenses :=
      (computeExpenses month expenses + amount newExpense)%float in
    (if exceeds totalExpenses (monthlyBudget config)
     then log (BudgetWarning (monthlyBudget config))
     else ret tt) ;;
    saveExpenses (expenses ++ [newExpense]) ;;
    log (Added (id newExpense)).

Definition summaryExpenses (month : Z) : Run unit :=
  expenses <- loadExpenses ;;
  if month =? 0 then
    let total :=
      fold_left (fun sum expense => (sum + amount expense)%float)
                expenses 0%float in
    log (TotalAll total)
  else if (month <? 12) && (month >? 0) then
    let totalExpenses := computeExpenses month expenses in
    log (TotalMonth month totalExpenses)
  else log InvalidMonth.

End Engine.

(** The loop of [deleteExpense]: [found] and [updatedExpenses] are the two
    variables it updates. *)
Fixpoint deleteLoop (targetId : Z) (expenses : list Expense)
    (found : bool) (updatedExpenses : list Expense)
    : bool * list Expense :=
  match expenses with
  | [] => (found, updatedExpenses)
  | expense :: rest =>
      if id expense =? targetId then
        deleteLoop targetId rest true updatedExpenses
      else
        let expense' :=
          if found then setId expense (id expense - 1) else expense in
        deleteLoop targetId rest found (updatedExpenses ++ [expense'])
  end.

Definition deleteExpense (targetId : Z) : Run unit :=
  expenses <- loadExpenses ;;
  let '(found, updatedExpenses) := deleteLoop targetId expenses false [] in
  if negb found then log (NotFound targetId)
  else saveExpenses updatedExpenses ;; log (Deleted targetId).

Definition setBudget (amount_ : float) : Run unit :=
  config <- loadConfig ;;
  if invalidAmount amount_ then log InvalidBudget
  else
    let config' := mkConfig (Some (parseFloat amount_)) in
    saveConfig config' ;; log (BudgetSet (parseFloat amount_)).

(** ** Rendering numbers *)

(** The decimal digits of an integer, as a template literal prints a number
    that holds an integer (below 10^21 in absolute value). *)
Definition digits (z : Z) : string :=
  NilZero.string_of_int (Z.to_int z).

Fixpoint zeros (n : nat) : string :=
  match n with
  | O => EmptyString
  | S n' => String "0" (zeros n')
  end.

(** The integer nearest to [100 * m * 2^e]; the larger one on a tie. *)
Definition nearestHundredths (m : positive) (e : Z) : Z :=
  if 0 <=? e then 100 * Z.pos m * 2 ^ e
  else (2 * 100 * Z.pos m + 2 ^ (- e)) / (2 * 2 ^ (- e)).

(** [m * 2^e >= 10^21] *)
Definition atLeast1e21 (m : positive) (e : Z) : bool :=
  if 0 <=? e then 10 ^ 21 <=? Z.pos m * 2 ^ e
  else 10 ^ 21 * 2 ^ (- e) <=? Z.pos m.

(** Steps 8 to 10 of [Number.prototype.toFixed] for two fraction digits:
    the digits of [n], padded to three, with the point before the last two. *)
Definition fixed2 (n : Z) : string :=
  let m := digits n in
  let k := String.length m in
  let m := if (k <=? 2)%nat then (zeros (3 - k) ++ m)%string else m in
  let k := String.length m in
  (substring 0 (k - 2) m ++ "." ++ substring (k - 2) 2 m)%string.

(** [Number::toString] on a value of 10^21 or more, [m * 2^e] with
    [2^52 <= m < 2^53]: the shortest decimal that rounds to the value, in
    exponent notation. [roundsTo m e w]: the integer [w] rounds (to nearest,
    ties to even) to [m * 2^e]. *)
Definition roundsTo (m : positive) (e : Z) (w : Z) : bool :=
  let v := Z.pos m * 2 ^ e in
  let up := 2 ^ (e - 1) in
  let down := if Z.pos m =? 2 ^ 52 then 2 ^ (e - 2) else 2 ^ (e - 1) in
  if Z.even (Z.pos m) then (v - down <=? w) && (w <=? v + up)
  else (v - down <? w) && (w <? v + up).

(** The shortest decimal with at least [k] significant digits, as the
    integer it denotes. *)
Fixpoint shortest (fuel : nat) (k : Z) (m : positive) (e : Z) : Z :=
  let v := Z.pos m * 2 ^ e in
  let p := Z.of_nat (String.length (digits v)) - k in
  let lo := v / 10 ^ p * 10 ^ p in
  let hi := lo + 10 ^ p in
  match fuel with
  | O => lo
  | S fuel' =>
      match roundsTo m e lo, roundsTo m e hi with
      | true, true =>
          if v - lo <? hi - v then lo
          else if hi - v <? v - lo then hi
          else if Z.even (lo / 10 ^ p) then lo else hi
      | true, false => lo
      | false, true => hi
      | false, false => shortest fuel' (k + 1) m e
      end
  end.

Fixpoint dropZeros (fuel : nat) (w : Z) : Z :=
  match fuel with
  | O => w
  | S fuel' => if w mod 10 =? 0 then dropZeros fuel' (w / 10) else w
  end.

Definition exponentString (m : positive) (e : Z) : string :=
  let w := shortest 17 1 m e in
  let n := String.length (digits w) in
  let s := digits (dropZeros n w) in
  match s with
  | EmptyString => EmptyString
  | String d EmptyString =>
      (String d "e+" ++ digits (Z.of_nat n - 1))%string
  | String d more =>
      (String d "." ++ more ++ "e+" ++ digits (Z.of_nat n - 1))%string
  end.

(** [x.toFixed(2)] *)
Definition toFixed2 (x : float) : string :=
  match Prim2SF x with
  | S754_nan => "NaN"%string
  | S754_infinity false => "Infinity"%string
  | S754_infinity true => "-Infinity"%string
  | S754_zero _ => "0.00"%string
  | S754_finite s m e =>
      let sign := if s then "-"%string else EmptyString in
      if atLeast1e21 m e
      then (sign ++ exponentString m e)%string
      else (sign ++ fixed2 (nearestHundredths m e))%string
  end.

(** ** Export *)

(** The characters the export treats specially. *)
Definition dquote : ascii := Eval cbv in ascii_of_nat 34.
Definition comma : ascii := Eval cbv in ascii_of_nat 44.
Definition lf : ascii := Eval cbv in ascii_of_nat 10.

(** [description.replace]: every double quote is doubled. *)
Fixpoint escapeQuotes (s : string) : string :=
  match s with
  | EmptyString => EmptyString
  | String c rest =>
      if Ascii.eqb c dquote
      then String dquote (String dquote (escapeQuotes rest))
      else String c (escapeQuotes rest)
  end.

Definition newline : string := String lf EmptyString.

Definition header : string :=
  ("ID,Category,Date,Amount,Description" ++ newline)%string.

Definition row (expense : Expense) : string :=
  (digits (id expense) ++ "," ++ category expense ++ "," ++ date expense
   ++ "," ++ toFixed2 (amount expense) ++ ","
   ++ String dquote (escapeQuotes (description expense))
   ++ String dquote EmptyString)%string.

(** [rows.join("\n")] *)
Definition csvContent (expenses : list Expense) : string :=
  (header ++ String.concat newline (map row expenses))%string.

Definition extractToCSV : Run unit :=
  expenses <- loadExpenses ;;
  if (List.length expenses =? 0)%nat then log NothingToExport
  else writeCSV (csvContent expenses) ;; log Exported.

(** ** The [add] case of [main] *)

(** [String.prototype.toLowerCase] on ASCII text. *)
Definition lowerChar (c : ascii) : ascii :=
  let n := nat_of_ascii c in
  if ((65 <=? n) && (n <=? 90))%nat then ascii_of_nat (n + 32) else c.

Fixpoint toLowerCase (s : string) : string :=
  match s with
  | EmptyString => EmptyString
  | String c rest => String (lowerChar c) (toLowerCase rest)
  end.

Definition categories : list string :=
  ["food"; "transport"; "entertainment"; "utilities"; "other"]%string.

(** [categories.includes(c)] *)
Definition includes (l : list string) (c : string) : bool :=
  existsb (String.eqb c) l.

(** The options [parseArgs] found after the command; [None] for an option
    that was not given. *)
Record Options := mkOptions {
  optAmount : option float;
  optDescription : option string;
  optCategory : option string
}.

Section Main.
Context `{Host}.

Definition mainAdd (now : Today) (options : Options) : Run unit :=
  match optCategory options with
  | Some category =>
      let isValidCategory := includes categories (toLowerCase category) in
      if negb isValidCategory then log InvalidCategory
      else
        match optAmount options, optDescription options with
        | Some amount_, Some description =>
            addExpense now amount_ description category
        | _, _ => log AddUsage
        end
  | None => log CategoryMissing
  end.

End Main.

(** ** Reading the export back *)

Inductive ReaderState := FieldStart | Unquoted | Quoted | QuoteSeen.

Definition snoc (s : string) (c : ascii) : string :=
  (s ++ String c EmptyString)%string.

(** Modelled from the spec: the re-parse of the exported text. The
    repository writes the CSV file and has no reader for it; the
    specification speaks of standard delimited-text quoting. [scan] is that
    reader: fields are separated by commas, records by line feeds, a field
    that starts with a double quote runs to the closing quote, and a doubled
    quote inside it stands for one quote. *)
Fixpoint scan (st : ReaderState) (field : string) (record : list string)
    (text : string) : list (list string) :=
  match text with
  | EmptyString =>
      match st, record with
      | FieldStart, [] => []
      | _, _ => [record ++ [field]]
      end
  | String c rest =>
      match st with
      | Quoted =>
          if Ascii.eqb c dquote then scan QuoteSeen field record rest
          else scan Quoted (snoc field c) record rest
      | _ =>
          if Ascii.eqb c comma then
            scan FieldStart EmptyString (record ++ [field]) rest
          else if Ascii.eqb c lf then
            (record ++ [field]) :: scan FieldStart EmptyString [] rest
          else if Ascii.eqb c dquote then
            match st with
            | FieldStart => scan Quoted field record rest
            | QuoteSeen => scan Quoted (snoc field c) record rest
            | _ => scan Unquoted (snoc field c) record rest
            end
          else scan Unquoted (snoc field c) record rest
      end
  end.

(** Modelled from the spec: the re-parse of the exported text, from the
    start of the text. *)
Definition readCSV (text : string) : list (list string) :=
  scan FieldStart EmptyString [] text.

(** Modelled from the spec: the re-parse of an identifier field, a decimal
    integer. *)
Definition readId (s : string) : option Z :=
  option_map Z.of_int (NilZero.int_of_string s).

(** ** A host for the examples

    The local time zone is UTC and dates have the form [addExpense] writes,
    [YYYY-MM-DD]; any other text is an invalid date. *)

Definition digitValue (c : ascii) : option Z :=
  let n := nat_of_ascii c in
  if ((48 <=? n) && (n <=? 57))%nat then Some (Z.of_nat (n - 48)) else None.

Definition isoMonth (s : string) : option Z :=
  match s with
  | String y1 (String y2 (String y3 (String y4 (String "-"
      (String m1 (String m2 (String "-"
        (String d1 (String d2 EmptyString))))))))) =>
      match digitValue y1, digitValue y2, digitValue y3, digitValue y4,
            digitValue m1, digitValue m2, digitValue d1, digitValue d2 with
      | Some _, Some _, Some _, Some _, Some a, Some b, Some c, Some d =>
          let month := 10 * a + b in
          let day := 10 * c + d in
          if (1 <=? month) && (month <=? 12) && (1 <=? day) && (day <=? 31)
          then Some (month - 1) else None
      | _, _, _, _, _, _, _, _ => None
      end
  | _ => None
  end.

Definition utcHost : Host := mkHost isoMonth.

(** ** Vocabulary of the properties *)

(** The identifiers [1, 2, ..., n], in this order. *)
Definition idsUpTo (n : nat) : list Z := map Z.of_nat (seq 1 n).

(** The sum of the amounts, added from 0 in stored order. *)
Definition sumAmounts (l : list Expense) : float :=
  fold_left (fun s a => (s + a)%float) (map amount l) 0%float.

(** Decrementing the identifier of a record. *)
Definition shiftDown (e : Expense) : Expense := setId e (id e - 1).

(** One call of [addExpense], with its clock. *)
Record AddCall := mkAddCall {
  callNow : Today;
  callAmount : float;
  callDescription : string;
  callCategory : string
}.

Section Sequences.
Context `{Host}.

Definition runAdd (d : Disk) (c : AddCall) : Disk :=
  disk_of (addExpense (callNow c) (callAmount c) (callDescription c)
                      (callCategory c) d).

Definition runAdds (calls : list AddCall) (d : Disk) : Disk :=
  fold_left runAdd calls d.

(** The record [addExpense] builds. *)
Definition newRecord (now : Today) (x : float) (desc cat : string)
    (l : list Expense) : Expense :=
  mkExpense (nextId l) cat (isoDate now) (parseFloat x) desc.

(** The total [addExpense] compares with the budget. *)
Definition monthTotalWith (now : Today) (x : float) (l : list Expense)
    : float :=
  (computeExpenses (monthIndex now + 1) l + parseFloat x)%float.

Definition warningLines (total : float) (budget : option float)
    : list Line :=
  if exceeds total budget then [BudgetWarning budget] else [].

End Sequences.

(** The commands that change the ledger, and runs of them. *)
Inductive Command :=
| Add (call : AddCall)
| Delete (targetId : Z).

Definition runCommand `{Host} (d : Disk) (c : Command) : Disk :=
  match c with
  | Add call => runAdd d call
  | Delete targetId => disk_of (deleteExpense targetId d)
  end.

Definition runCommands `{Host} (cs : list Command) (d : Disk) : Disk :=
  fold_left runCommand cs d.

(** The invariant of the ledger: the identifiers, in stored order, are
    1, 2, ..., N for the number N of records. *)
Definition dense (l : list Expense) : Prop :=
  map id l = idsUpTo (List.length l).

(** Text without comma, line feed or double quote. *)
Definition plainChar (c : ascii) : bool :=
  negb (Ascii.eqb c comma || Ascii.eqb c lf || Ascii.eqb c dquote).

Fixpoint plain (s : string) : bool :=
  match s with
  | EmptyString => true
  | String c rest => plainChar c && plain rest
  end.

(** The numbers [toFixed(2)] writes in fixed notation: the finite ones
    below 10^21 in absolute value. *)
Definition rendersFixed (x : float) : bool :=
  match Prim2SF x with
  | S754_zero _ => true
  | S754_finite _ m e => negb (atLeast1e21 m e)
  | _ => false
  end.

(** A text with a point before its last two characters. *)
Definition twoDecimals (text : string) : Prop :=
  exists whole frac,
    text = (whole ++ "." ++ frac)%string /\ String.length frac = 2%nat.

(** What a reader finds in the row of a record. *)
Definition fields (e : Expense) : list string :=
  [ digits (id e); category e; date e; toFixed2 (amount e); description e ].

Definition headerFields : list string :=
  [ "ID"; "Category"; "Date"; "Amount"; "Description" ]%string.

Definition readable (e : Expense) : Prop :=
  plain (category e) = true /\ plain (date e) = true.

(** ** Sample data for the examples *)

(** A ledger of three records, used by the examples. *)
Definition threeRecords : list Expense :=
  [ mkExpense 1 "food" "2024-07-01" 15.5 "Lunch";
    mkExpense 2 "transport" "2024-07-02" 24.5 "Train";
    mkExpense 3 "other" "2024-08-03" 7 "Stamps" ]%string.

Definition threeOnDisk : Disk :=
  mkDisk (Parsed threeRecords) (Parsed (mkConfig (Some 45%float))) None.

Definition emptyDisk : Disk := mkDisk Missing Missing None.

Definition twoCalls : list AddCall :=
  [ mkAddCall (mkToday "2024-07-01" 6) 15.5 "Lunch" "food";
    mkAddCall (mkToday "2024-07-02" 6) 24.5 "Train" "transport" ]%string.

(** The scenario of the specification: two July records totalling 40, a
    budget of 45, and a new expense of 10 in July. *)
Definition julyRecords : list Expense :=
  [ mkExpense 1 "food" "2024-07-01" 15.5 "Lunch";
    mkExpense 2 "food" "2024-07-02" 24.5 "Groceries" ]%string.

Definition julyDisk : Disk :=
  mkDisk (Parsed julyRecords) (Parsed (mkConfig (Some 45%float))) None.

Definition july20 : Today := mkToday "2024-07-20" 6.

Definition bogusOptions : Options :=
  mkOptions (Some 10%float) (Some "Dinner"%string) (Some "Bogus"%string).

Definition brokenConfigDisk : Disk :=
  mkDisk (Parsed julyRecords) Unparsable None.

Definition tenCents : list Expense :=
  [ mkExpense 1 "food" "2024-07-01" 0.1 "Gum" ]%string.

Definition twentyAndThirty : list Expense :=
  [ mkExpense 2 "food" "2024-07-02" 0.2 "Mint";
    mkExpense 3 "food" "2024-07-03" 0.3 "Candy" ]%string.

Definition quotedRecords : list Expense :=
  [ mkExpense 1 "food" "2024-07-01" 12.5
      (String "S" (String dquote (String "," (String dquote "x"))));
    mkExpense 2 "other" "2024-07-02" 0.125 "Gum, mint" ]%string.

Definition quotedDisk : Disk := mkDisk (Parsed quotedRecords) Missing None.

Definition eighth : list Expense :=
  [ mkExpense 1 "food" "2024-07-01" 0.125 "Gum" ]%string.

Definition thirteenCents : list Expense :=
  [ mkExpense 1 "food" "2024-07-01" 0.13 "Gum" ]%string.

Definition commaInCategory : list Expense :=
  [ mkExpense 1 "a,b" "c" 1 "x" ]%string.

Definition commaInDate : list Expense :=
  [ mkExpense 1 "a" "b,c" 1 "x" ]%string.

(** ** Listing *)

Definition tabChar : ascii := Eval cbv in ascii_of_nat 9.
Definition tab : string := String tabChar EmptyString.

(** The records [listExpenses] keeps: all of them when the category is
    [null] or the empty text (both falsy), and otherwise those whose
    category and the filter have the same lower-case form. *)
Definition listSelect (category_ : option string) (expenses : list Expense)
    : list Expense :=
  match category_ with
  | None => expenses
  | Some EmptyString => expenses
  | Some c =>
      filter (fun expense =>
                String.eqb (toLowerCase (category expense)) (toLowerCase c))
             expenses
  end.

Definition listHeader : string :=
  ("# ID" ++ tab ++ "| Category" ++ tab ++ "| Date" ++ tab ++ tab
   ++ "| Amount" ++ tab ++ tab ++ "| Description")%string.

Definition listRow (expense : Expense) : string :=
  ("# " ++ digits (id expense) ++ tab ++ "| " ++ category expense
   ++ tab ++ "| " ++ date expense ++ tab ++ "| $"
   ++ toFixed2 (amount expense) ++ tab ++ tab ++ "| "
   ++ description expense)%string.

(** The lines [listExpenses] prints for the loaded array. *)
Definition listLines (category_ : option string) (expenses : list Expense)
    : list string :=
  let expenses := listSelect category_ expenses in
  if (List.length expenses =? 0)%nat then ["No expenses found."%string]
  else listHeader :: map listRow expenses.

(** [listExpenses]: the result is the lines of the listing, in print
    order; the line of a parse error of [loadExpenses] is in the output. *)
Definition listExpenses (category_ : option string) : Run (list string) :=
  expenses <- loadExpenses ;;
  ret (listLines category_ expenses).

(** ** Command-line arguments *)

(** The value [parseArgs] gives an option: the next argument, or [true]. *)
Inductive OptValue :=
| Flag
| Text (value : string).

(** [s.startsWith('--')] *)
Definition startsWithDashes (s : string) : bool := String.prefix "--" s.

(** [s.replace('--', '')]: the leftmost [--] is removed. *)
Fixpoint removeDashes (s : string) : string :=
  match s with
  | EmptyString => EmptyString
  | String c rest =>
      match rest with
      | EmptyString => s
      | String c' rest' =>
          if Ascii.eqb c "-" && Ascii.eqb c' "-" then rest'
          else String c (removeDashes rest)
      end
  end.

(** The loop of [parseArgs] from index [i]: [args] are the arguments from
    [i] on, [options] the assignments made so far, the latest first. *)
Fixpoint parseLoop (args : list string) (options : list (string * OptValue))
    : list (string * OptValue) :=
  match args with
  | [] => options
  | arg :: rest =>
      if startsWithDashes arg then
        let key := removeDashes arg in
        match rest with
        | next :: rest' =>
            if negb (String.eqb next EmptyString)
               && negb (startsWithDashes next)
            then parseLoop rest' ((key, Text next) :: options)
            else parseLoop rest ((key, Flag) :: options)
        | [] => (key, Flag) :: options
        end
      else parseLoop rest options
  end.

(** [parseArgs] on [process.argv.slice(2)]: the command ([undefined] when
    there is no argument) and the options. *)
Definition parseArgs (args : list string)
    : option string * list (string * OptValue) :=
  (hd_error args, parseLoop (tl args) []).

(** [options[key]]: the latest assignment to the key, [None] for
    [undefined]. *)
Fixpoint getOption (key : string) (options : list (string * OptValue))
    : option OptValue :=
  match options with
  | [] => None
  | (k, v) :: rest => if String.eqb k key then Some v else getOption key rest
  end.

(** ** The engine on any argument value

    JavaScript passes [addExpense], [setBudget] and [summaryExpenses]
    whatever value the caller has: a number, the text of a command-line
    argument, or the [true] of an option written without a value. The code
    never uses the value itself, only its coercions; a value is modelled by
    what these coercions give. *)

(** The amount argument: [asNumber] is [Number(amount)], which
    [isNaN(amount)] and [amount <= 0] test; [asParsedFloat] is
    [parseFloat(amount)], which is stored. *)
Record AmountValue := mkAmountValue {
  asNumber : float;
  asParsedFloat : float
}.

(** A number passed as the amount. *)
Definition numberAmount (x : float) : AmountValue :=
  mkAmountValue x (parseFloat x).

(** The text [0x10]: [Number] reads the hexadecimal literal, 16;
    [parseFloat] stops at the [x] and reads 0. *)
Definition hexSixteen : AmountValue := mkAmountValue 16 0.

(** The numbers [JSON.stringify] and [JSON.parse] give back unchanged: the
    finite ones other than -0 (NaN and the infinities are written as
    [null], -0 as [0]). *)
Definition jsonSafe (x : float) : bool :=
  is_finite x && negb (is_zero x && get_sign x).

(** The month argument of [summaryExpenses]: [isNumberZero] is
    [month === 0], [lessThan12] is [month < 12], [greaterThan0] is
    [month > 0], [asParsedInt] is [parseInt(month)] ([None] for [NaN]) and
    [asText] is the month as the message shows it. *)
Record MonthValue := mkMonthValue {
  isNumberZero : bool;
  lessThan12 : bool;
  greaterThan0 : bool;
  asParsedInt : option Z;
  asText : string
}.

(** A number that holds the integer [m]. *)
Definition integerMonth (m : Z) : MonthValue :=
  mkMonthValue (m =? 0) (m <? 12) (m >? 0) (Some m) (digits m).

(** The number 7.5: it shows as [7.5], and [parseInt] reads 7 from that. *)
Definition sevenAndHalf : MonthValue :=
  mkMonthValue (7.5 =? 0)%float (7.5 <? 12)%float (0 <? 7.5)%float
               (Some 7) "7.5".

(** The text [0] of [--month 0]: a text is never [=== 0]; compared with a
    number it is read as the number 0. *)
Definition textZero : MonthValue :=
  mkMonthValue false (0 <? 12)%float (0 <? 0)%float (Some 0) "0".

(** The text [7] of [--month 7]: compared with a number it is read as the
    number 7. *)
Definition textSeven : MonthValue :=
  mkMonthValue false (7 <? 12)%float (0 <? 7)%float (Some 7) "7".

(** The [true] of [--month] written without a value: compared with a
    number it is read as 1, and [parseInt] reads [NaN] from its text. *)
Definition trueMonth : MonthValue :=
  mkMonthValue false (1 <? 12)%float (0 <? 1)%float None "true".

(** The line [summaryExpenses] prints. *)
Inductive SummaryLine :=
| AllTime (total : float)
| ForMonth (month : string) (total : float)
| MonthRefused.

Section EngineOnValues.
Context `{Host}.

(** [computeExpenses] for a month of which only [parseInt] is used; a
    [NaN] target equals no month. *)
Definition computeExpensesOf (target : option Z) (expenses : list Expense)
    : float :=
  match target with
  | Some targetMonth => computeExpenses targetMonth expenses
  | None =>
      fold_left (fun sum expense => (sum + amount expense)%float)
                (filter (fun _ => false) expenses) 0%float
  end.

Definition addExpenseOf (now : Today) (amount_ : AmountValue)
    (description category : string) : Run unit :=
  expenses <- loadExpenses ;;
  let expensesID := nextId expenses in
  if invalidAmount (asNumber amount_) then log InvalidAmount
  else
    let newExpense :=
      mkExpense expensesID category (isoDate now) (asParsedFloat amount_)
                description in
    config <- loadConfig ;;
    let month := monthIndex now + 1 in
    let totalExpenses :=
      (computeExpenses month expenses + amount newExpense)%float in
    (if exceeds totalExpenses (monthlyBudget config)
     then log (BudgetWarning (monthlyBudget config))
     else ret tt) ;;
    saveExpenses (expenses ++ [newExpense]) ;;
    log (Added (id newExpense)).

(** [summaryExpenses]: the result is the line it prints. *)
Definition summaryExpensesOf (month : MonthValue) : Run SummaryLine :=
  expenses <- loadExpenses ;;
  if isNumberZero month then
    let total :=
      fold_left (fun sum expense => (sum + amount expense)%float)
                expenses 0%float in
    ret (AllTime total)
  else if lessThan12 month && greaterThan0 month then
    let totalExpenses := computeExpensesOf (asParsedInt month) expenses in
    ret (ForMonth (asText month) totalExpenses)
  else ret MonthRefused.

End EngineOnValues.

Definition setBudgetOf (amount_ : AmountValue) : Run unit :=
  config <- loadConfig ;;
  if invalidAmount (asNumber amount_) then log InvalidBudget
  else
    let config' := mkConfig (Some (asParsedFloat amount_)) in
    saveConfig config' ;; log (BudgetSet (asParsedFloat amount_)).



(** The names every plain object inherits from [Object.prototype]:
    [options[key]] finds them without any assignment, and an assignment to
    [__proto__] of a text or [true] sets nothing. *)
Definition inheritedKeys : list string :=
  [ "__proto__"; "constructor"; "hasOwnProperty"; "isPrototypeOf";
    "propertyIsEnumerable"; "toLocaleString"; "toString"; "valueOf";
    "__defineGetter__"; "__defineSetter__"; "__lookupGetter__";
    "__lookupSetter__" ]%string.

(** A key for which [options[key]] is the latest assignment, if any. *)
Definition plainKey (key : string) : bool :=
  negb (existsb (String.eqb key) inheritedKeys).

(** ** Vocabulary of the further properties *)

(** The arguments that spell options with their values. *)
Definition spell (pairs : list (string * string)) : list string :=
  flat_map (fun kv => [("--" ++ fst kv)%string; snd kv]) pairs.

(** The options a spelled command line stands for, the latest first. *)
Definition asOptions (pairs : list (string * string))
    : list (string * OptValue) :=
  rev (map (fun kv => (fst kv, Text (snd kv))) pairs).

(** A text that [parseArgs] takes as the value of an option. *)
Definition isValue (v : string) : bool :=
  negb (String.eqb v EmptyString) && negb (startsWithDashes v).

(** Options that come from the arguments [all]: each key is an argument
    that starts with [--], without its leftmost [--], and each text value
    is an argument that [parseArgs] takes as a value. *)
Definition fromArgs (all : list string) (options : list (string * OptValue))
    : Prop :=
  forall k v, In (k, v) options ->
    (exists arg, In arg all /\ startsWithDashes arg = true
                 /\ removeDashes arg = k)
    /\ (forall s, v = Text s -> isValue s = true /\ In s all).

(** The value given last to a key. *)
Fixpoint lastValue (key : string) (pairs : list (string * string))
    : option string :=
  match pairs with
  | [] => None
  | (k, v) :: rest =>
      match lastValue key rest with
      | Some v' => Some v'
      | None => if String.eqb k key then Some v else None
      end
  end.

(** The records a deletion of [k] does not remove. *)
Definition keeps (k : Z) (e : Expense) : bool := negb (id e =? k).

(** Sample data. *)
Definition repeatedIds : list Expense :=
  [ mkExpense 1 "food" "2024-07-01" 15.5 "Lunch";
    mkExpense 2 "transport" "2024-07-02" 24.5 "Train";
    mkExpense 2 "other" "2024-07-03" 3 "Copy";
    mkExpense 3 "food" "2024-08-03" 7 "Stamps" ]%string.

Definition repeatedIdsDisk : Disk :=
  mkDisk (Parsed repeatedIds) (Parsed (mkConfig (Some 45%float))) None.


Definition mixedCommands : list Command :=
  [ Add (mkAddCall (mkToday "2024-07-01" 6) 15.5 "Lunch" "food");
    Add (mkAddCall (mkToday "2024-07-02" 6) 24.5 "Train" "transport");
    Delete 1;
    Add (mkAddCall (mkToday "2024-07-03" 6) (-1) "Refund" "other");
    Add (mkAddCall (mkToday "2024-07-04" 6) 7 "Stamps" "other");
    Delete 9 ]%string.

Definition sampleArgs : list (string * string) :=
  [ ("amount", "10"); ("description", "Dinner"); ("category", "food");
    ("amount", "12.5") ]%string.

(** The line of [summaryExpenses] for an integer month, as a [Line]. *)
Definition asLine (m : Z) (l : SummaryLine) : Line :=
  match l with
  | AllTime total => TotalAll total
  | ForMonth _ total => TotalMonth m total
  | MonthRefused => InvalidMonth
  end.


(** * Properties *)

(** ** Loading *)

Lemma loadExpenses_run (d : Disk) :
  loadExpenses d = (ledger d, d, output (loadExpenses d)).
Proof.
  unfold ledger, loadExpenses, bind, readExpensesFile, result, output.
  destruct (expenses_json d); reflexivity.
Qed.

Lemma ledger_saved (l : list Expense) (c : File Config) (x : option string) :
  ledger (mkDisk (Parsed l) c x) = l.
Proof. reflexivity. Qed.

(** ** Deletion *)

Lemma deleteLoop_absent (t : Z) (l : list Expense) :
  forall acc, (forall e, In e l -> id e <> t) ->
  deleteLoop t l false acc = (false, acc ++ l).
Proof.
  induction l as [|e l IH]; intros acc Hno; simpl.
  - now rewrite app_nil_r.
  - destruct (Z.eqb_spec (id e) t) as [E|_].
    + exfalso. apply (Hno e); [now left | exact E].
    + rewrite IH by (intros x Hx; apply Hno; now right).
      now rewrite <- app_assoc.
Qed.

Lemma deleteLoop_after (t : Z) (l : list Expense) :
  forall acc, (forall e, In e l -> id e <> t) ->
  deleteLoop t l true acc = (true, acc ++ map shiftDown l).
Proof.
  induction l as [|e l IH]; intros acc Hno; simpl.
  - now rewrite app_nil_r.
  - destruct (Z.eqb_spec (id e) t) as [E|_].
    + exfalso. apply (Hno e); [now left | exact E].
    + rewrite IH by (intros x Hx; apply Hno; now right).
      now rewrite <- app_assoc.
Qed.

Lemma deleteLoop_split (t : Z) (before after : list Expense) (e : Expense) :
  id e = t ->
  (forall x, In x before -> id x <> t) ->
  (forall x, In x after -> id x <> t) ->
  deleteLoop t (before ++ e :: after) false []
  = (true, before ++ map shiftDown after).
Proof.
  intros He Hb Ha.
  assert (G : forall acc, deleteLoop t (before ++ e :: after) false acc
                          = (true, acc ++ before ++ map shiftDown after)).
  { induction before as [|b before IH]; intros acc; simpl.
    - rewrite He, Z.eqb_refl. now apply deleteLoop_after.
    - destruct (Z.eqb_spec (id b) t) as [E|_].
      + exfalso. apply (Hb b); [now left | exact E].
      + rewrite IH by (intros x Hx; apply Hb; now right).
        now rewrite <- app_assoc. }
  exact (G []).
Qed.

(** Facts on the identifiers [1..n]. *)

Lemma idsUpTo_length (n : nat) : List.length (idsUpTo n) = n.
Proof. unfold idsUpTo. now rewrite length_map, length_seq. Qed.

Lemma idsUpTo_range (n : nat) (z : Z) :
  In z (idsUpTo n) -> 1 <= z <= Z.of_nat n.
Proof.
  unfold idsUpTo. rewrite in_map_iff. intros (x & <- & Hx).
  apply in_seq in Hx. lia.
Qed.

Lemma seq_offset (a s n : nat) :
  map Z.of_nat (seq (s + a) n)
  = map (fun z => z + Z.of_nat a) (map Z.of_nat (seq s n)).
Proof.
  revert s. induction n as [|n IH]; intros s; simpl; [reflexivity|].
  f_equal; [lia|]. exact (IH (S s)).
Qed.

Lemma idsUpTo_app (a b : nat) :
  idsUpTo (a + b) = idsUpTo a ++ map (fun z => z + Z.of_nat a) (idsUpTo b).
Proof.
  unfold idsUpTo. rewrite seq_app, map_app. f_equal. apply seq_offset.
Qed.

Lemma idsUpTo_succ (b : nat) :
  idsUpTo (S b) = 1 :: map (fun z => z + 1) (idsUpTo b).
Proof.
  change (S b) with (1 + b)%nat. rewrite idsUpTo_app. reflexivity.
Qed.

Lemma app_same_length {A} (a c b d : list A) :
  List.length a = List.length c -> a ++ b = c ++ d -> a = c /\ b = d.
Proof.
  revert c. induction a as [|x a IH]; intros [|y c] Hlen E;
    simpl in *; try discriminate.
  - now split.
  - injection E as -> E. destruct (IH c) as [-> ->]; [lia | exact E | now split].
Qed.

(** Where the record numbered [k] sits in a ledger numbered [1..N]. *)
Lemma dense_split (l before after : list Expense) (e : Expense) (N : nat) :
  map id l = idsUpTo N ->
  l = before ++ e :: after ->
  N = (List.length before + S (List.length after))%nat
  /\ map id before = idsUpTo (List.length before)
  /\ id e = Z.of_nat (List.length before) + 1
  /\ map id after
     = map (fun z => z + (Z.of_nat (List.length before) + 1))
           (idsUpTo (List.length after)).
Proof.
  intros Hids ->.
  assert (HN : N = (List.length before + S (List.length after))%nat).
  { apply (f_equal (@List.length Z)) in Hids.
    rewrite length_map, length_app, idsUpTo_length in Hids.
    simpl in Hids. lia. }
  split; [exact HN|]. subst N.
  rewrite map_app, idsUpTo_app, idsUpTo_succ in Hids. cbn [map] in Hids.
  apply app_same_length in Hids;
    [| now rewrite length_map, idsUpTo_length].
  destruct Hids as [Hb Hrest]. injection Hrest as He Ha.
  change (id e = 1 + Z.of_nat (List.length before)) in He.
  repeat split; [exact Hb | lia |].
  rewrite Ha, map_map. apply map_ext. intros z. lia.
Qed.

Lemma shiftDown_ids (a : nat) (after : list Expense) :
  map id after
  = map (fun z => z + (Z.of_nat a + 1)) (idsUpTo (List.length after)) ->
  map id (map shiftDown after)
  = map (fun z => z + Z.of_nat a) (idsUpTo (List.length after)).
Proof.
  intros Ha. rewrite map_map. simpl.
  change (map (fun x => id x - 1) after)
    with (map (fun x => (fun z => z - 1) (id x)) after).
  rewrite <- (map_map id (fun z => z - 1)), Ha, map_map.
  apply map_ext. intros z. lia.
Qed.

(** Deleting the record at a known place of a ledger numbered [1..N]. *)
Lemma deleteExpense_present (d : Disk) (N : nat)
    (before after : list Expense) (e : Expense) :
  map id (ledger d) = idsUpTo N ->
  ledger d = before ++ e :: after ->
  deleteExpense (id e) d
  = (tt, mkDisk (Parsed (before ++ map shiftDown after))
                (config_json d) (expenses_csv d),
     output (loadExpenses d) ++ [Deleted (id e)])
  /\ map id (before ++ map shiftDown after) = idsUpTo (N - 1)
  /\ List.length (before ++ map shiftDown after) = (N - 1)%nat.
Proof.
  intros Hids Hl.
  destruct (dense_split _ _ _ _ _ Hids Hl) as (HN & Hb & Hek & Ha).
  assert (Hnb : forall x, In x before -> id x <> id e).
  { intros x Hx. apply (in_map id) in Hx. rewrite Hb in Hx.
    apply idsUpTo_range in Hx. lia. }
  assert (Hna : forall x, In x after -> id x <> id e).
  { intros x Hx. apply (in_map id) in Hx. rewrite Ha in Hx.
    apply in_map_iff in Hx. destruct Hx as (z & Hz & Hzin).
    apply idsUpTo_range in Hzin. lia. }
  split; [|split].
  - unfold deleteExpense, bind. rewrite loadExpenses_run, Hl.
    rewrite (deleteLoop_split (id e) before after e eq_refl Hnb Hna).
    reflexivity.
  - rewrite map_app, Hb, (shiftDown_ids _ _ Ha).
    replace (N - 1)%nat with (List.length before + List.length after)%nat
      by lia.
    now rewrite idsUpTo_app.
  - rewrite length_app, length_map. lia.
Qed.

(** C1. In a ledger whose identifiers, in stored order, are 1, 2, ..., N and
    that holds a record numbered k, [deleteExpense k] removes that record:
    the records before it are kept as they are, every record after it is
    kept with its identifier decremented by 1, in the same order; the new
    ledger has N - 1 records, numbered 1, 2, ..., N - 1. *)
Theorem delete_renumbers (d : Disk) (k : Z) (N : nat) :
  map id (ledger d) = idsUpTo N ->
  In k (map id (ledger d)) ->
  let d' := disk_of (deleteExpense k d) in
  exists before e after,
    ledger d = before ++ e :: after
    /\ id e = k
    /\ ledger d' = before ++ map shiftDown after
    /\ List.length (ledger d') = (N - 1)%nat
    /\ map id (ledger d') = idsUpTo (N - 1)
    /\ output (deleteExpense k d) = output (loadExpenses d) ++ [Deleted k].
Proof.
  intros Hids Hk d'.
  apply in_map_iff in Hk. destruct Hk as (e & He & Hin).
  apply in_split in Hin. destruct Hin as (before & after & Hl).
  destruct (deleteExpense_present d N before after e Hids Hl)
    as (Hrun & Hnew & Hlen).
  exists before, e, after. subst d' k. rewrite Hrun.
  unfold disk_of, output; simpl. rewrite ledger_saved.
  repeat split; assumption.
Qed.

Lemma delete_renumbers_witness :
  ledger (disk_of (deleteExpense 2 threeOnDisk))
  = [ mkExpense 1 "food" "2024-07-01" 15.5 "Lunch";
      mkExpense 2 "other" "2024-08-03" 7 "Stamps" ]%string
  /\ exists before e after,
       ledger threeOnDisk = before ++ e :: after
       /\ id e = 2
       /\ ledger (disk_of (deleteExpense 2 threeOnDisk))
          = before ++ map shiftDown after
       /\ List.length (ledger (disk_of (deleteExpense 2 threeOnDisk)))
          = (3 - 1)%nat
       /\ map id (ledger (disk_of (deleteExpense 2 threeOnDisk)))
          = idsUpTo (3 - 1)
       /\ output (deleteExpense 2 threeOnDisk)
          = output (loadExpenses threeOnDisk) ++ [Deleted 2].
Proof.
  split; [reflexivity|].
  apply (delete_renumbers threeOnDisk 2 3).
  - reflexivity.
  - simpl. right. left. reflexivity.
Defined.

(** C8. When no record of the ledger has the target identifier,
    [deleteExpense] writes nothing: the disk, and so the ledger, is the one
    it started from, and the only line printed for the command is the
    not-found message. *)
Theorem delete_absent_unchanged (d : Disk) (targetId : Z) :
  (forall e, In e (ledger d) -> id e <> targetId) ->
  disk_of (deleteExpense targetId d) = d
  /\ ledger (disk_of (deleteExpense targetId d)) = ledger d
  /\ output (deleteExpense targetId d)
     = output (loadExpenses d) ++ [NotFound targetId].
Proof.
  intros Hno.
  assert (Hrun : deleteExpense targetId d
                 = (tt, d, output (loadExpenses d) ++ [NotFound targetId])).
  { unfold deleteExpense, bind. rewrite loadExpenses_run.
    rewrite (deleteLoop_absent targetId (ledger d) [] Hno). reflexivity. }
  rewrite Hrun. repeat split.
Qed.

Lemma delete_absent_unchanged_witness :
  (forall e, In e (ledger threeOnDisk) -> id e <> 7)
  /\ disk_of (deleteExpense 7 threeOnDisk) = threeOnDisk
  /\ ledger (disk_of (deleteExpense 7 threeOnDisk)) = ledger threeOnDisk
  /\ output (deleteExpense 7 threeOnDisk)
     = output (loadExpenses threeOnDisk) ++ [NotFound 7].
Proof.
  assert (Hno : forall e, In e (ledger threeOnDisk) -> id e <> 7).
  { simpl. intros e [<-|[<-|[<-|[]]]]; discriminate. }
  split; [exact Hno|].
  exact (delete_absent_unchanged threeOnDisk 7 Hno).
Defined.

(** ** Addition *)

Section Addition.
Context `{Host}.

Lemma loadConfig_run (d : Disk) :
  loadConfig d
  = (result (loadConfig d),
     mkDisk (expenses_json d) (config_json (disk_of (loadConfig d)))
            (expenses_csv d),
     output (loadConfig d)).
Proof.
  unfold loadConfig, bind, readConfigFile, result, disk_of, output.
  destruct d as [ej [| |c] csv]; reflexivity.
Qed.

Lemma addExpense_rejected (now : Today) (x : float) (desc cat : string)
    (d : Disk) :
  invalidAmount x = true ->
  addExpense now x desc cat d
  = (tt, d, output (loadExpenses d) ++ [InvalidAmount]).
Proof.
  intros Hx. unfold addExpense, bind. rewrite loadExpenses_run, Hx.
  reflexivity.
Qed.

Lemma addExpense_accepted (now : Today) (x : float) (desc cat : string)
    (d : Disk) :
  invalidAmount x = false ->
  addExpense now x desc cat d
  = (tt,
     mkDisk (Parsed (ledger d ++ [newRecord now x desc cat (ledger d)]))
            (config_json (disk_of (loadConfig d))) (expenses_csv d),
     output (loadExpenses d) ++ output (loadConfig d)
       ++ warningLines (monthTotalWith now x (ledger d))
                       (monthlyBudget (result (loadConfig d)))
       ++ [Added (nextId (ledger d))]).
Proof.
  intros Hx. unfold addExpense, bind. rewrite loadExpenses_run, Hx.
  rewrite loadConfig_run. unfold warningLines, monthTotalWith, newRecord.
  cbn [amount id].
  destruct (exceeds _ _); reflexivity.
Qed.

End Addition.

Lemma nextId_snoc (l : list Expense) (x : Expense) :
  nextId (l ++ [x]) = id x + 1.
Proof.
  destruct l as [|e l]; [reflexivity|].
  change (id (last (l ++ [x]) e) + 1 = id x + 1). now rewrite last_last.
Qed.

Lemma nextId_last (l : list Expense) :
  l <> [] -> nextId l = last (map id l) 0 + 1.
Proof.
  intros Hl. destruct (exists_last Hl) as (l' & x & ->).
  rewrite nextId_snoc, map_app. cbn [map]. now rewrite last_last.
Qed.

Lemma nextId_dense (l : list Expense) (n : nat) :
  map id l = idsUpTo n -> nextId l = Z.of_nat n + 1.
Proof.
  intros Hids. destruct l as [|e l].
  - destruct n; [reflexivity | discriminate].
  - destruct (@exists_last _ (e :: l)) as (l' & x & E); [discriminate|].
    rewrite E in *. rewrite nextId_snoc.
    destruct (dense_split _ l' [] x n Hids eq_refl) as (Hn & _ & Hx & _).
    simpl in Hn. lia.
Qed.

Section AdditionProperties.
Context `{Host}.

Lemma runAdd_accepted (d : Disk) (c : AddCall) :
  invalidAmount (callAmount c) = false ->
  ledger (runAdd d c)
  = ledger d
    ++ [newRecord (callNow c) (callAmount c) (callDescription c)
                  (callCategory c) (ledger d)].
Proof.
  intros Hc. unfold runAdd. now rewrite addExpense_accepted.
Qed.

Lemma runAdds_dense (calls : list AddCall) :
  forall (d : Disk) (n : nat),
  map id (ledger d) = idsUpTo n ->
  Forall (fun c => invalidAmount (callAmount c) = false) calls ->
  map id (ledger (runAdds calls d)) = idsUpTo (n + List.length calls).
Proof.
  induction calls as [|c calls IH]; intros d n Hd Hok; simpl.
  - now rewrite Nat.add_0_r.
  - inversion Hok as [|? ? Hc Hrest]; subst.
    replace (n + S (List.length calls))%nat
      with (S n + List.length calls)%nat by lia.
    apply IH; [|exact Hrest].
    rewrite (runAdd_accepted d c Hc), map_app. simpl.
    rewrite (nextId_dense _ _ Hd), Hd.
    replace (S n) with (n + 1)%nat by lia.
    rewrite idsUpTo_app. f_equal.
    change (idsUpTo 1) with [1]. cbn [map]. f_equal. lia.
Qed.

(** C2. Starting from an empty ledger, N accepted additions (and no
    deletion) leave a ledger whose identifiers are 1, 2, ..., N; and each
    accepted addition appends one record whose identifier is 1 on an empty
    ledger and the identifier of the last record plus 1 otherwise. *)
Theorem additions_assign_1_to_N (calls : list AddCall) (d0 : Disk) :
  ledger d0 = [] ->
  Forall (fun c => invalidAmount (callAmount c) = false) calls ->
  map id (ledger (runAdds calls d0)) = idsUpTo (List.length calls)
  /\ (forall z, In z (map id (ledger (runAdds calls d0)))
                <-> 1 <= z <= Z.of_nat (List.length calls))
  /\ (forall d c, invalidAmount (callAmount c) = false ->
        exists e, ledger (runAdd d c) = ledger d ++ [e]
          /\ id e = match ledger d with
                    | [] => 1
                    | _ :: _ => last (map id (ledger d)) 0 + 1
                    end).
Proof.
  intros Hempty Hok.
  assert (Hids : map id (ledger (runAdds calls d0))
                 = idsUpTo (List.length calls)).
  { apply (runAdds_dense calls d0 0); [now rewrite Hempty | exact Hok]. }
  split; [exact Hids|]. split.
  - intros z. rewrite Hids. unfold idsUpTo. rewrite in_map_iff. split.
    + intros (x & <- & Hx). apply in_seq in Hx. lia.
    + intros Hz. exists (Z.to_nat z). split; [lia|]. apply in_seq. lia.
  - intros d c Hc. eexists. split; [exact (runAdd_accepted d c Hc)|].
    unfold newRecord. cbn [id].
    destruct (ledger d) as [|e l] eqn:E; [reflexivity|].
    apply nextId_last. discriminate.
Qed.

(** The invariant holds of every ledger the commands build. *)
Lemma dense_preserved (c : Command) (d : Disk) :
  dense (ledger d) -> dense (ledger (runCommand d c)).
Proof.
  unfold dense. intros Hd. destruct c as [call | k]; simpl.
  - destruct (invalidAmount (callAmount call)) eqn:Hx.
    + unfold runAdd. now rewrite addExpense_rejected.
    + rewrite (runAdd_accepted d call Hx), map_app, length_app.
      cbn [map List.length]. unfold newRecord. cbn [id].
      rewrite (nextId_dense _ _ Hd), Hd, idsUpTo_app. f_equal.
      change (idsUpTo 1) with [1]. cbn [map]. f_equal. lia.
  - destruct (in_dec Z.eq_dec k (map id (ledger d))) as [Hin | Hout].
    + apply in_map_iff in Hin. destruct Hin as (e & <- & Hin).
      apply in_split in Hin. destruct Hin as (before & after & Hl).
      destruct (deleteExpense_present d _ before after e Hd Hl)
        as (Hrun & Hnew & Hlen).
      rewrite Hrun. unfold disk_of; simpl. rewrite ledger_saved.
      now rewrite Hlen.
    + unfold deleteExpense, bind. rewrite loadExpenses_run.
      rewrite (deleteLoop_absent k (ledger d) []); [exact Hd|].
      intros e He E. apply Hout. rewrite <- E. now apply in_map.
Qed.

Lemma dense_reachable (cs : list Command) (d : Disk) :
  dense (ledger d) -> dense (ledger (runCommands cs d)).
Proof.
  revert d. induction cs as [|c cs IH]; intros d Hd; simpl; [exact Hd|].
  apply IH. now apply dense_preserved.
Qed.

End AdditionProperties.

Lemma additions_assign_1_to_N_witness :
  map id (ledger (@runAdds utcHost twoCalls emptyDisk)) = [1; 2]
  /\ map id (ledger (@runAdds utcHost twoCalls emptyDisk))
     = idsUpTo (List.length twoCalls)
  /\ (forall z, In z (map id (ledger (@runAdds utcHost twoCalls emptyDisk)))
                <-> 1 <= z <= Z.of_nat (List.length twoCalls))
  /\ (forall d c, invalidAmount (callAmount c) = false ->
        exists e, ledger (@runAdd utcHost d c) = ledger d ++ [e]
          /\ id e = match ledger d with
                    | [] => 1
                    | _ :: _ => last (map id (ledger d)) 0 + 1
                    end).
Proof.
  split; [reflexivity|].
  apply (@additions_assign_1_to_N utcHost twoCalls emptyDisk).
  - reflexivity.
  - repeat constructor.
Defined.

(** ** Sums of amounts *)

Lemma sumAmounts_fold (l : list Expense) (a : float) :
  fold_left (fun sum expense => (sum + amount expense)%float) l a
  = fold_left (fun s x => (s + x)%float) (map amount l) a.
Proof.
  revert a. induction l as [|e l IH]; intros a; simpl; [reflexivity|].
  apply IH.
Qed.

(** ** Validation of the amount *)

Lemma loadExpenses_quiet (d : Disk) (b : option float) :
  ~ In (BudgetWarning b) (output (loadExpenses d)).
Proof.
  unfold loadExpenses, bind, readExpensesFile, output.
  destruct (expenses_json d); simpl; intuition discriminate.
Qed.

Lemma loadConfig_quiet (d : Disk) (b : option float) :
  ~ In (BudgetWarning b) (output (loadConfig d)).
Proof.
  unfold loadConfig, bind, readConfigFile, output.
  destruct (config_json d); simpl; intuition discriminate.
Qed.

(** [setBudget] has the guard of [addExpense]: a rejected amount leaves the
    budget as [loadConfig] found it. *)
Lemma setBudget_rejected (x : float) (d : Disk) :
  invalidAmount x = true ->
  setBudget x d
  = (tt, disk_of (loadConfig d), output (loadConfig d) ++ [InvalidBudget]).
Proof.
  intros Hx. unfold setBudget, bind. rewrite Hx.
  unfold loadConfig, bind, readConfigFile, disk_of, output.
  destruct (config_json d); reflexivity.
Qed.

Section ValidationProperties.
Context `{Host}.

(** C4, as the code has it. When the amount is NaN or is at most 0 (zero,
    negative numbers, minus infinity), [addExpense] prints the
    invalid-amount message and writes nothing: the disk, and so the ledger,
    is the one it started from. *)
Theorem add_rejects_nan_and_nonpositive (now : Today) (x : float)
    (desc cat : string) (d : Disk) :
  is_nan x = true \/ (x <=? 0)%float = true ->
  disk_of (addExpense now x desc cat d) = d
  /\ ledger (disk_of (addExpense now x desc cat d)) = ledger d
  /\ output (addExpense now x desc cat d)
     = output (loadExpenses d) ++ [InvalidAmount].
Proof.
  intros Hx.
  assert (Hinv : invalidAmount x = true).
  { unfold invalidAmount. destruct Hx as [-> | ->];
      [reflexivity | apply orb_true_r]. }
  rewrite (addExpense_rejected now x desc cat d Hinv). repeat split.
Qed.

(** C5, as the code has it. The [add] case of [main] checks the category:
    when its lower-case form is not one of the five names, [main] prints the
    invalid-category message, does not call [addExpense] and writes nothing.
    [addExpense] itself looks at no category: with an accepted amount it
    appends the record under whatever category it is given. *)
Theorem main_checks_category (now : Today) (d : Disk) :
  (forall options cat,
     optCategory options = Some cat ->
     includes categories (toLowerCase cat) = false ->
     mainAdd now options d = (tt, d, [InvalidCategory]))
  /\ (forall x desc cat,
        invalidAmount x = false ->
        ledger (disk_of (addExpense now x desc cat d))
        = ledger d ++ [newRecord now x desc cat (ledger d)]).
Proof.
  split.
  - intros options cat Hc Hbad. unfold mainAdd. rewrite Hc, Hbad.
    reflexivity.
  - intros x desc cat Hx. now rewrite addExpense_accepted.
Qed.

(** C10. When the loaded configuration has no [monthlyBudget] field, which
    is what [loadConfig] returns for an unparsable [config.json],
    [addExpense] prints no budget warning, whatever the amount and the
    ledger. *)
Theorem no_budget_no_warning (now : Today) (x : float) (desc cat : string)
    (d : Disk) :
  (config_json d = Unparsable -> result (loadConfig d) = mkConfig None)
  /\ (monthlyBudget (result (loadConfig d)) = None ->
      forall b, ~ In (BudgetWarning b) (output (addExpense now x desc cat d))).
Proof.
  split.
  - intros E. unfold loadConfig, bind, readConfigFile, result.
    now rewrite E.
  - intros Hnone b Hin.
    destruct (invalidAmount x) eqn:Hx.
    + rewrite (addExpense_rejected now x desc cat d Hx) in Hin.
      unfold output in Hin; simpl in Hin.
      apply in_app_or in Hin. destruct Hin as [Hin | [Hin | []]].
      * exact (loadExpenses_quiet d b Hin).
      * discriminate.
    + rewrite (addExpense_accepted now x desc cat d Hx) in Hin.
      unfold output at 1 in Hin; simpl in Hin. rewrite Hnone in Hin.
      unfold warningLines, exceeds in Hin. simpl in Hin.
      apply in_app_or in Hin. destruct Hin as [Hin | Hin].
      * exact (loadExpenses_quiet d b Hin).
      * apply in_app_or in Hin. destruct Hin as [Hin | [Hin | []]].
        -- exact (loadConfig_quiet d b Hin).
        -- discriminate.
Qed.

End ValidationProperties.

(** ** Stored amounts and monthly sums *)

Lemma float_eqb_leb (x y : float) :
  (x =? y)%float = true -> (x <=? y)%float = true.
Proof.
  rewrite eqb_spec, leb_spec. unfold SFeqb, SFleb.
  destruct (SFcompare (Prim2SF x) (Prim2SF y)) as [[| |]|];
    (reflexivity || discriminate).
Qed.

(** An accepted amount is stored as it is. *)
Lemma parseFloat_accepted (x : float) :
  invalidAmount x = false -> parseFloat x = x.
Proof.
  unfold invalidAmount, parseFloat. intros Hx.
  apply orb_false_elim in Hx. destruct Hx as [_ Hle].
  destruct (x =? 0)%float eqn:E; [|reflexivity].
  apply float_eqb_leb in E. congruence.
Qed.

Lemma computeExpenses_sum `{Host} (m : Z) (l : list Expense) :
  computeExpenses m l = sumAmounts (filter (inMonth m) l).
Proof. unfold computeExpenses, sumAmounts. apply sumAmounts_fold. Qed.

(** ** Examples for the validation properties *)

Lemma add_rejects_nan_and_nonpositive_witness :
  (is_nan (-5) = true \/ (-5 <=? 0)%float = true)
  /\ disk_of (@addExpense utcHost july20 (-5) "Refund" "other" julyDisk)
     = julyDisk
  /\ ledger (disk_of (@addExpense utcHost july20 (-5) "Refund" "other"
                        julyDisk))
     = ledger julyDisk
  /\ output (@addExpense utcHost july20 (-5) "Refund" "other" julyDisk)
     = output (loadExpenses julyDisk) ++ [InvalidAmount].
Proof.
  assert (Hx : is_nan (-5) = true \/ (-5 <=? 0)%float = true)
    by (right; reflexivity).
  split; [exact Hx|].
  exact (@add_rejects_nan_and_nonpositive utcHost july20 (-5)%float
           "Refund" "other" julyDisk Hx).
Defined.

(** C4, as stated, fails: plus infinity is not a finite number, and
    [addExpense] accepts it and appends the record. *)
Lemma add_accepts_infinity :
  is_finite infinity = false
  /\ List.length
       (ledger (disk_of (@addExpense utcHost july20 infinity "Yacht" "other"
                           julyDisk)))
     = S (List.length (ledger julyDisk))
  /\ output (@addExpense utcHost july20 infinity "Yacht" "other" julyDisk)
     = [BudgetWarning (Some 45%float); Added 3]
  /\ ledger (disk_of (@addExpense utcHost july20 infinity "Yacht" "other"
                        julyDisk))
     <> ledger julyDisk
  /\ ~ In InvalidAmount
         (output (@addExpense utcHost july20 infinity "Yacht" "other"
                    julyDisk)).
Proof.
  repeat split.
  - discriminate.
  - simpl. intuition discriminate.
Qed.

Lemma main_checks_category_witness :
  includes categories (toLowerCase "Bogus") = false
  /\ @mainAdd utcHost july20 bogusOptions julyDisk
     = (tt, julyDisk, [InvalidCategory])
  /\ ledger (disk_of (@addExpense utcHost july20 10 "Dinner" "food" julyDisk))
     = ledger julyDisk
       ++ [@newRecord july20 10 "Dinner" "food" (ledger julyDisk)].
Proof.
  destruct (@main_checks_category utcHost july20 julyDisk) as [Hmain Hadd].
  split; [reflexivity|]. split.
  - exact (Hmain bogusOptions "Bogus"%string eq_refl eq_refl).
  - exact (Hadd 10%float "Dinner"%string "food"%string eq_refl).
Defined.

(** C5, as stated, fails: called with a category outside the five names,
    [addExpense] appends the record. *)
Lemma add_accepts_unknown_category :
  includes categories (toLowerCase "bogus") = false
  /\ ledger (disk_of (@addExpense utcHost july20 10 "Dinner" "bogus"
                        julyDisk))
     = julyRecords ++ [mkExpense 3 "bogus" "2024-07-20" 10 "Dinner"]
  /\ ledger (disk_of (@addExpense utcHost july20 10 "Dinner" "bogus"
                        julyDisk))
     <> ledger julyDisk
  /\ output (@addExpense utcHost july20 10 "Dinner" "bogus" julyDisk)
     = [BudgetWarning (Some 45%float); Added 3].
Proof.
  repeat split. discriminate.
Qed.

Lemma no_budget_no_warning_witness :
  result (loadConfig brokenConfigDisk) = mkConfig None
  /\ output (@addExpense utcHost july20 1000 "Rent" "other" brokenConfigDisk)
     = [ConfigParseError; Added 3]
  /\ forall b,
       ~ In (BudgetWarning b)
            (output (@addExpense utcHost july20 1000 "Rent" "other"
                       brokenConfigDisk)).
Proof.
  destruct (@no_budget_no_warning utcHost july20 1000 "Rent" "other"
              brokenConfigDisk) as [Hload Hquiet].
  split; [exact (Hload eq_refl)|]. split; [reflexivity|].
  exact (Hquiet eq_refl).
Defined.

(** ** Monthly totals *)

Section MonthlyTotals.
Context `{Host}.

Lemma inMonth_false (m : Z) (e : Expense) :
  getMonth (date e) <> Some (m - 1) -> inMonth m e = false.
Proof.
  unfold inMonth. destruct (getMonth (date e)) as [x|]; [|reflexivity].
  intros Hne. apply Z.eqb_neq. intros E. apply Hne. f_equal. lia.
Qed.

(** C7, as the code has it. [computeExpenses] over [A ++ B] carries the
    total of [A] on through the amounts of the records of [B] in the
    month, adding them in stored order; and it is 0 when no record has a
    date in the month. *)
Theorem monthly_total_continues (m : Z) (A B : list Expense) :
  computeExpenses m (A ++ B)
  = fold_left (fun s a => (s + a)%float)
              (map amount (filter (inMonth m) B)) (computeExpenses m A)
  /\ ((forall e, In e A -> getMonth (date e) <> Some (m - 1)) ->
      computeExpenses m A = 0%float).
Proof.
  split.
  - unfold computeExpenses.
    now rewrite filter_app, fold_left_app, <- sumAmounts_fold.
  - intros Hno. unfold computeExpenses.
    replace (filter (inMonth m) A) with (@nil Expense); [reflexivity|].
    symmetry. induction A as [|e A IH]; [reflexivity|]. simpl.
    rewrite (inMonth_false m e) by (apply Hno; now left).
    apply IH. intros x Hx. apply Hno. now right.
Qed.

End MonthlyTotals.

Lemma monthly_total_continues_witness :
  @computeExpenses utcHost 7 (tenCents ++ twentyAndThirty)
  = fold_left (fun s a => (s + a)%float)
              (map amount (filter (@inMonth utcHost 7) twentyAndThirty))
              (@computeExpenses utcHost 7 tenCents)
  /\ @computeExpenses utcHost 8 tenCents = 0%float.
Proof.
  destruct (@monthly_total_continues utcHost 7 tenCents twentyAndThirty)
    as [Happ _].
  destruct (@monthly_total_continues utcHost 8 tenCents []) as [_ Hzero].
  split; [exact Happ|]. apply Hzero.
  intros e [<-|[]]. discriminate.
Defined.

(** C7, as stated, fails: the amounts are binary floating-point numbers and
    their addition is not associative. *)
Lemma monthly_total_not_additive :
  @computeExpenses utcHost 7 (tenCents ++ twentyAndThirty)
  = 0.6000000000000001%float
  /\ (@computeExpenses utcHost 7 tenCents
      + @computeExpenses utcHost 7 twentyAndThirty)%float
     = 0.6%float
  /\ @computeExpenses utcHost 7 (tenCents ++ twentyAndThirty)
     <> (@computeExpenses utcHost 7 tenCents
         + @computeExpenses utcHost 7 twentyAndThirty)%float.
Proof.
  repeat split. intros E.
  apply (f_equal (fun total => (total =? 0.6)%float)) in E.
  vm_compute in E. discriminate E.
Qed.

(** ** Export *)

Local Open Scope string_scope.

Lemma string_app_nil (s : string) : s ++ EmptyString = s.
Proof. induction s as [|c s IH]; simpl; [reflexivity | now rewrite IH]. Qed.

Lemma string_app_assoc (a b c : string) : (a ++ b) ++ c = a ++ (b ++ c).
Proof. induction a as [|x a IH]; simpl; [reflexivity | now rewrite IH]. Qed.

Lemma plainChar_tests (c : ascii) :
  plainChar c = true ->
  Ascii.eqb c comma = false /\ Ascii.eqb c lf = false
  /\ Ascii.eqb c dquote = false.
Proof.
  unfold plainChar. intros Hc. apply negb_true_iff in Hc.
  apply orb_false_elim in Hc. destruct Hc as [Hc Hq].
  apply orb_false_elim in Hc. destruct Hc as [Hc Hl]. now repeat split.
Qed.

Lemma plain_app (a b : string) : plain (a ++ b) = plain a && plain b.
Proof.
  induction a as [|c a IH]; simpl; [reflexivity|].
  now rewrite IH, andb_assoc.
Qed.

(** The reader on an unquoted field. *)
Lemma scan_plain (p : string) :
  plain p = true ->
  forall field record rest,
  scan Unquoted field record (p ++ rest)
  = scan Unquoted (field ++ p) record rest.
Proof.
  induction p as [|c p IH]; intros Hp field record rest; simpl.
  - now rewrite string_app_nil.
  - simpl in Hp. apply andb_prop in Hp. destruct Hp as [Hc Hp].
    destruct (plainChar_tests c Hc) as (-> & -> & ->).
    rewrite (IH Hp). unfold snoc. now rewrite string_app_assoc.
Qed.

Lemma scan_field (p : string) (record : list string) (rest : string) :
  plain p = true ->
  scan FieldStart EmptyString record (p ++ String comma rest)
  = scan FieldStart EmptyString (record ++ [p]) rest.
Proof.
  intros Hp. destruct p as [|c p]; [reflexivity|].
  simpl in Hp. apply andb_prop in Hp. destruct Hp as [Hc Hp].
  cbn [append scan]. destruct (plainChar_tests c Hc) as (-> & -> & ->).
  rewrite (scan_plain p Hp). reflexivity.
Qed.

(** The reader on a quoted field. *)
Lemma scan_quoted (text : string) :
  forall field record rest,
  scan Quoted field record (escapeQuotes text ++ String dquote rest)
  = scan QuoteSeen (field ++ text) record rest.
Proof.
  induction text as [|c text IH]; intros field record rest.
  - simpl. now rewrite string_app_nil.
  - cbn [escapeQuotes]. destruct (Ascii.eqb c dquote) eqn:E.
    + apply Ascii.eqb_eq in E. subst c. cbn [append scan].
      change (Ascii.eqb dquote dquote) with true. cbv iota.
      change (Ascii.eqb dquote comma) with false.
      change (Ascii.eqb dquote lf) with false. cbv iota.
      rewrite IH. unfold snoc. now rewrite string_app_assoc.
    + cbn [append scan]. rewrite E, IH. unfold snoc.
      now rewrite string_app_assoc.
Qed.

(** Numbers are rendered without comma, line feed or double quote. *)
Lemma plain_uint (d : Decimal.uint) :
  plain (NilEmpty.string_of_uint d) = true.
Proof. induction d; simpl; (reflexivity || assumption). Qed.

Lemma plain_digits (z : Z) : plain (digits z) = true.
Proof.
  unfold digits. destruct (Z.to_int z) as [d|d]; simpl;
    destruct d; simpl; try reflexivity; apply plain_uint.
Qed.

Lemma plain_substring (s : string) :
  plain s = true -> forall n m, plain (substring n m s) = true.
Proof.
  induction s as [|c s IH]; intros Hs n m.
  - destruct n, m; reflexivity.
  - simpl in Hs. apply andb_prop in Hs. destruct Hs as [Hc Hs].
    destruct n as [|n]; simpl.
    + destruct m as [|m]; [reflexivity|]. simpl.
      now rewrite Hc, (IH Hs 0%nat m).
    + apply (IH Hs).
Qed.

Lemma plain_zeros (n : nat) : plain (zeros n) = true.
Proof. induction n as [|n IH]; simpl; [reflexivity | exact IH]. Qed.

Lemma plain_fixed2 (n : Z) : plain (fixed2 n) = true.
Proof.
  unfold fixed2.
  set (m := if (String.length (digits n) <=? 2)%nat
            then zeros (3 - String.length (digits n)) ++ digits n
            else digits n).
  assert (Hm : plain m = true).
  { subst m. destruct (String.length (digits n) <=? 2)%nat.
    - now rewrite plain_app, plain_zeros, plain_digits.
    - apply plain_digits. }
  rewrite !plain_app, !(plain_substring m Hm). reflexivity.
Qed.

Lemma plain_exponentString (m : positive) (e : Z) :
  plain (exponentString m e) = true.
Proof.
  unfold exponentString.
  set (w := shortest 17 1 m e).
  set (n := String.length (digits w)).
  pose proof (plain_digits (dropZeros n w)) as Hs.
  destruct (digits (dropZeros n w)) as [|d more]; [reflexivity|].
  simpl in Hs. apply andb_prop in Hs. destruct Hs as [Hd Hmore].
  destruct more as [|d' more'] eqn:Emore.
  - simpl. now rewrite Hd, plain_digits.
  - rewrite <- Emore in *.
    change (plainChar d
            && (plainChar "."
                && plain (more ++ "e+" ++ digits (Z.of_nat n - 1))) = true).
    rewrite Hd, !plain_app, Hmore, plain_digits. reflexivity.
Qed.

Lemma plain_toFixed2 (x : float) : plain (toFixed2 x) = true.
Proof.
  unfold toFixed2. destruct (Prim2SF x) as [s|[|]| |s m e]; try reflexivity.
  destruct (atLeast1e21 m e); rewrite plain_app;
    [rewrite plain_exponentString | rewrite plain_fixed2];
    destruct s; reflexivity.
Qed.

(** Fixed notation has two fraction digits. *)
Lemma string_length_app (a b : string) :
  String.length (a ++ b) = (String.length a + String.length b)%nat.
Proof. induction a as [|c a IH]; simpl; [reflexivity | now rewrite IH]. Qed.

Lemma zeros_length (n : nat) : String.length (zeros n) = n.
Proof. induction n as [|n IH]; simpl; [reflexivity | now rewrite IH]. Qed.

Lemma substring_length (s : string) :
  forall n m, (n + m <= String.length s)%nat ->
  String.length (substring n m s) = m.
Proof.
  induction s as [|c s IH]; intros n m Hnm; simpl in Hnm.
  - assert (n = 0%nat) by lia. assert (m = 0%nat) by lia. now subst.
  - destruct n as [|n]; simpl.
    + destruct m as [|m]; [reflexivity|]. simpl. rewrite IH; [reflexivity|].
      simpl. lia.
    + apply IH. lia.
Qed.

Lemma fixed2_twoDecimals (n : Z) : twoDecimals (fixed2 n).
Proof.
  unfold fixed2.
  set (m := if (String.length (digits n) <=? 2)%nat
            then zeros (3 - String.length (digits n)) ++ digits n
            else digits n).
  assert (Hm : (3 <= String.length m)%nat).
  { subst m. destruct (Nat.leb_spec (String.length (digits n)) 2).
    - rewrite string_length_app, zeros_length. lia.
    - lia. }
  exists (substring 0 (String.length m - 2) m),
         (substring (String.length m - 2) 2 m).
  split; [reflexivity|]. apply substring_length. lia.
Qed.

Lemma toFixed2_twoDecimals (x : float) :
  rendersFixed x = true -> twoDecimals (toFixed2 x).
Proof.
  unfold rendersFixed, toFixed2.
  destruct (Prim2SF x) as [s|[|]| |s m e]; try discriminate.
  - intros _. exists "0", "00". now split.
  - intros Hx. apply negb_true_iff in Hx. rewrite Hx.
    destruct (fixed2_twoDecimals (nearestHundredths m e))
      as (whole & frac & -> & Hfrac).
    exists ((if s then "-" else EmptyString) ++ whole), frac.
    split; [now rewrite string_app_assoc | exact Hfrac].
Qed.

Lemma row_tail (e : Expense) (tail : string) :
  row e ++ tail
  = digits (id e) ++ String comma
      (category e ++ String comma
        (date e ++ String comma
          (toFixed2 (amount e) ++ String comma
            (String dquote
              (escapeQuotes (description e) ++ String dquote tail))))).
Proof.
  unfold row. rewrite !string_app_assoc. reflexivity.
Qed.

Lemma scan_row (e : Expense) (tail : string) :
  readable e ->
  scan FieldStart EmptyString [] (row e ++ tail)
  = scan QuoteSeen (description e)
         [ digits (id e); category e; date e; toFixed2 (amount e) ] tail.
Proof.
  intros [Hc Hd]. rewrite row_tail.
  rewrite (scan_field _ _ _ (plain_digits (id e))).
  rewrite (scan_field _ _ _ Hc), (scan_field _ _ _ Hd).
  rewrite (scan_field _ _ _ (plain_toFixed2 (amount e))).
  cbn [scan app].
  change (Ascii.eqb dquote comma) with false.
  change (Ascii.eqb dquote lf) with false.
  change (Ascii.eqb dquote dquote) with true. cbv iota.
  now rewrite scan_quoted.
Qed.

Lemma scan_rows (l : list Expense) :
  l <> [] -> Forall readable l ->
  scan FieldStart EmptyString []
       (String.concat newline (map row l))
  = map fields l.
Proof.
  induction l as [|e l IH]; intros Hne Hok; [contradiction|].
  inversion Hok as [|? ? He Hl]; subst.
  destruct l as [|e2 l].
  - cbn [map String.concat]. rewrite <- (string_app_nil (row e)).
    rewrite (scan_row e EmptyString He). reflexivity.
  - change (String.concat newline (map row (e :: e2 :: l)))
      with (row e ++ newline ++ String.concat newline (map row (e2 :: l))).
    change (newline ++ String.concat newline (map row (e2 :: l)))
      with (String lf (String.concat newline (map row (e2 :: l)))).
    rewrite (scan_row e _ He). cbn [scan].
    change (Ascii.eqb lf comma) with false.
    change (Ascii.eqb lf lf) with true. cbv iota.
    rewrite IH by (discriminate || exact Hl). reflexivity.
Qed.

Lemma scan_header (rest : string) :
  scan FieldStart EmptyString [] (header ++ rest)
  = headerFields :: scan FieldStart EmptyString [] rest.
Proof. reflexivity. Qed.

Lemma readId_digits (z : Z) : readId (digits z) = Some z.
Proof.
  unfold readId, digits. rewrite NilZero.isi.
  - simpl. now rewrite DecimalZ.of_to.
  - destruct z; simpl; intros E; try discriminate.
    injection E as E. exact (DecimalPos.Unsigned.to_uint_nonnil _ E).
  - destruct z; simpl; intros E; try discriminate.
    injection E as E. exact (DecimalPos.Unsigned.to_uint_nonnil _ E).
Qed.

Local Close Scope string_scope.

(** C9, as the code has it. For a non-empty ledger whose categories and
    dates hold no comma, line feed or double quote, [extractToCSV] writes
    the header row and one row per record in stored order, and reading that
    text back gives, for each record, the decimal text of its identifier
    (which reads back as the identifier), its category, its date and its
    description exactly, and its amount as [toFixed(2)] rounds it: with
    exactly two decimal places for a finite amount below 10^21. *)
Theorem export_reads_back (d : Disk) :
  ledger d <> [] ->
  Forall readable (ledger d) ->
  expenses_csv (disk_of (extractToCSV d)) = Some (csvContent (ledger d))
  /\ readCSV (csvContent (ledger d))
     = headerFields :: map fields (ledger d)
  /\ (forall e, In e (ledger d) -> readId (digits (id e)) = Some (id e))
  /\ (forall e, In e (ledger d) -> rendersFixed (amount e) = true ->
        twoDecimals (toFixed2 (amount e)))
  /\ output (extractToCSV d) = output (loadExpenses d) ++ [Exported].
Proof.
  intros Hne Hok.
  assert (Hrun : extractToCSV d
                 = (tt, mkDisk (expenses_json d) (config_json d)
                               (Some (csvContent (ledger d))),
                    output (loadExpenses d) ++ [Exported])).
  { unfold extractToCSV, bind. rewrite loadExpenses_run.
    destruct (ledger d) as [|e l]; [contradiction | reflexivity]. }
  rewrite Hrun. repeat split.
  - unfold readCSV, csvContent. rewrite scan_header.
    now rewrite (scan_rows (ledger d) Hne Hok).
  - intros e _. apply readId_digits.
  - intros e _. apply toFixed2_twoDecimals.
Qed.

Lemma export_reads_back_witness :
  readCSV (csvContent quotedRecords)
  = [ headerFields;
      [ "1"; "food"; "2024-07-01"; "12.50";
        String "S" (String dquote (String "," (String dquote "x"))) ];
      [ "2"; "other"; "2024-07-02"; "0.13"; "Gum, mint" ] ]%string
  /\ expenses_csv (disk_of (extractToCSV quotedDisk))
     = Some (csvContent (ledger quotedDisk))
  /\ readCSV (csvContent (ledger quotedDisk))
     = headerFields :: map fields (ledger quotedDisk)
  /\ (forall e, In e (ledger quotedDisk) ->
        readId (digits (id e)) = Some (id e))
  /\ (forall e, In e (ledger quotedDisk) ->
        rendersFixed (amount e) = true ->
        twoDecimals (toFixed2 (amount e)))
  /\ output (extractToCSV quotedDisk)
     = output (loadExpenses quotedDisk) ++ [Exported].
Proof.
  split; [reflexivity|].
  apply (export_reads_back quotedDisk).
  - discriminate.
  - repeat constructor.
Defined.

(** C9, as stated, fails: two ledgers that differ in an amount are exported
    as the same text, so no reader of that text recovers every amount. The
    category and the date are written without quotes: two ledgers that
    differ in both, one with a comma in the category and one with a comma in
    the date, are exported as the same text too. *)
Lemma export_loses_amount :
  csvContent eighth = csvContent thirteenCents
  /\ (0.125 =? 0.13)%float = false
  /\ csvContent commaInCategory = csvContent commaInDate
  /\ map category commaInCategory <> map category commaInDate
  /\ ~ (exists reparse : string -> list float,
          forall l, l <> [] -> reparse (csvContent l) = map amount l).
Proof.
  split; [reflexivity|]. split; [reflexivity|].
  split; [reflexivity|]. split; [discriminate|].
  intros [reparse Hre].
  assert (H1 := Hre eighth ltac:(discriminate)).
  assert (H2 := Hre thirteenCents ltac:(discriminate)).
  change (csvContent thirteenCents) with (csvContent eighth) in H2.
  rewrite H1 in H2.
  apply (f_equal (fun amounts => (hd 0 amounts =? 0.13)%float)) in H2.
  discriminate H2.
Qed.

(** * Further properties of the commands *)

(** ** Deletion on any ledger *)

Lemma deleteLoop_found (k : Z) (l : list Expense) :
  forall acc,
  deleteLoop k l true acc = (true, acc ++ map shiftDown (filter (keeps k) l)).
Proof.
  induction l as [|e l IH]; intros acc; simpl.
  - now rewrite app_nil_r.
  - unfold keeps at 1. destruct (id e =? k); simpl.
    + apply IH.
    + rewrite IH, <- app_assoc. reflexivity.
Qed.

Lemma deleteLoop_first (k : Z) (before after : list Expense) (e : Expense) :
  id e = k ->
  (forall x, In x before -> id x <> k) ->
  deleteLoop k (before ++ e :: after) false []
  = (true, before ++ map shiftDown (filter (keeps k) after)).
Proof.
  intros He Hb.
  assert (G : forall acc,
            deleteLoop k (before ++ e :: after) false acc
            = (true, acc ++ before ++ map shiftDown (filter (keeps k) after))).
  { induction before as [|b before IH]; intros acc; simpl.
    - rewrite He, Z.eqb_refl. apply deleteLoop_found.
    - destruct (Z.eqb_spec (id b) k) as [E|_].
      + exfalso. apply (Hb b); [now left | exact E].
      + rewrite IH by (intros x Hx; apply Hb; now right).
        now rewrite <- app_assoc. }
  exact (G []).
Qed.

(** The first record numbered [k], when there is one. *)
Lemma first_match (k : Z) (l : list Expense) :
  In k (map id l) ->
  exists before e after,
    l = before ++ e :: after /\ id e = k
    /\ (forall x, In x before -> id x <> k).
Proof.
  induction l as [|a l IH]; intros Hin; [destruct Hin|].
  destruct (Z.eq_dec (id a) k) as [E|N].
  - exists [], a, l. repeat split; [exact E | intros x []].
  - destruct Hin as [E|Hin]; [contradiction|].
    destruct (IH Hin) as (before & e & after & -> & He & Hb).
    exists (a :: before), e, after. repeat split; [exact He|].
    intros x [<-|Hx]; [exact N | now apply Hb].
Qed.

Lemma deleteExpense_first (d : Disk) (k : Z)
    (before after : list Expense) (e : Expense) :
  ledger d = before ++ e :: after ->
  id e = k ->
  (forall x, In x before -> id x <> k) ->
  deleteExpense k d
  = (tt, mkDisk (Parsed (before ++ map shiftDown (filter (keeps k) after)))
                (config_json d) (expenses_csv d),
     output (loadExpenses d) ++ [Deleted k]).
Proof.
  intros Hl He Hb. unfold deleteExpense, bind.
  rewrite loadExpenses_run, Hl, (deleteLoop_first k before after e He Hb).
  reflexivity.
Qed.

(** X1. On any ledger that holds the target identifier, [deleteExpense]
    keeps the records before the first match as they are, removes every
    record with that identifier (not only the first), and keeps the other
    records after the first match, in order, each with its identifier
    decremented by 1. *)
Theorem delete_removes_every_match (d : Disk) (k : Z) :
  In k (map id (ledger d)) ->
  exists before e after,
    ledger d = before ++ e :: after
    /\ id e = k
    /\ (forall x, In x before -> id x <> k)
    /\ ledger (disk_of (deleteExpense k d))
       = before ++ map shiftDown (filter (keeps k) after)
    /\ output (deleteExpense k d) = output (loadExpenses d) ++ [Deleted k].
Proof.
  intros Hin.
  destruct (first_match k (ledger d) Hin) as (before & e & after & Hl & He & Hb).
  exists before, e, after.
  rewrite (deleteExpense_first d k before after e Hl He Hb).
  repeat split; assumption.
Qed.

Lemma delete_removes_every_match_witness :
  ledger (disk_of (deleteExpense 2 repeatedIdsDisk))
  = [ mkExpense 1 "food" "2024-07-01" 15.5 "Lunch";
      mkExpense 2 "food" "2024-08-03" 7 "Stamps" ]%string
  /\ exists before e after,
       ledger repeatedIdsDisk = before ++ e :: after
       /\ id e = 2
       /\ (forall x, In x before -> id x <> 2)
       /\ ledger (disk_of (deleteExpense 2 repeatedIdsDisk))
          = before ++ map shiftDown (filter (keeps 2) after)
       /\ output (deleteExpense 2 repeatedIdsDisk)
          = output (loadExpenses repeatedIdsDisk) ++ [Deleted 2].
Proof.
  split; [reflexivity|].
  apply (delete_removes_every_match repeatedIdsDisk 2).
  simpl. right. left. reflexivity.
Defined.

Lemma NoDup_map_injective {A B} (f : A -> B) (l : list A) :
  (forall x y, f x = f y -> x = y) -> NoDup l -> NoDup (map f l).
Proof.
  intros Hf Hl. induction Hl as [|a l Ha Hl IH]; simpl; constructor.
  - intros Hin. apply in_map_iff in Hin. destruct Hin as (x & E & Hx).
    apply Hf in E. now subst.
  - exact IH.
Qed.

Lemma idsUpTo_NoDup (n : nat) : NoDup (idsUpTo n).
Proof.
  unfold idsUpTo. apply NoDup_map_injective; [|apply seq_NoDup].
  intros x y. apply Nat2Z.inj.
Qed.

Lemma dense_fresh (l : list Expense) :
  dense l -> forall e, In e l -> id e <> nextId l.
Proof.
  intros Hd e He. rewrite (nextId_dense l _ Hd).
  apply (in_map id) in He. rewrite Hd in He.
  apply idsUpTo_range in He. lia.
Qed.

Section CommandRuns.
Context `{Host}.

(** X2. Whatever sequence of additions (accepted or rejected) and deletions
    (found or not) is run from an empty ledger, the identifiers of the
    ledger, in stored order, are 1, 2, ..., N for its N records: no
    identifier appears twice, and the identifier the next addition assigns
    is not in use. *)
Theorem commands_keep_identifiers_dense (cs : list Command) (d : Disk) :
  ledger d = [] ->
  let l := ledger (runCommands cs d) in
  map id l = idsUpTo (List.length l)
  /\ NoDup (map id l)
  /\ (forall e, In e l -> id e <> nextId l).
Proof.
  intros Hempty l.
  assert (Hd : dense l).
  { apply dense_reachable. unfold dense. now rewrite Hempty. }
  split; [exact Hd|]. split.
  - rewrite Hd. apply idsUpTo_NoDup.
  - now apply dense_fresh.
Qed.

(** X3. On a ledger numbered 1..N, an accepted addition followed by the
    deletion of the identifier it assigned gives back the ledger as it
    was. *)
Theorem add_then_delete_restores (now : Today) (x : float)
    (desc cat : string) (d : Disk) :
  dense (ledger d) ->
  invalidAmount x = false ->
  ledger (disk_of (deleteExpense (nextId (ledger d))
                     (disk_of (addExpense now x desc cat d))))
  = ledger d.
Proof.
  intros Hd Hx.
  set (d1 := disk_of (addExpense now x desc cat d)).
  assert (Hl : ledger d1
               = ledger d ++ newRecord now x desc cat (ledger d) :: []).
  { subst d1. now rewrite addExpense_accepted. }
  rewrite (deleteExpense_first d1 (nextId (ledger d)) _ [] _ Hl eq_refl
             (dense_fresh _ Hd)).
  unfold disk_of; simpl. rewrite ledger_saved. apply app_nil_r.
Qed.

End CommandRuns.

Lemma commands_keep_identifiers_dense_witness :
  map id (ledger (@runCommands utcHost mixedCommands emptyDisk)) = [1; 2]
  /\ map description (ledger (@runCommands utcHost mixedCommands emptyDisk))
     = [ "Train"; "Stamps" ]%string
  /\ NoDup (map id (ledger (@runCommands utcHost mixedCommands emptyDisk)))
  /\ (forall e, In e (ledger (@runCommands utcHost mixedCommands emptyDisk)) ->
        id e <> nextId (ledger (@runCommands utcHost mixedCommands emptyDisk))).
Proof.
  destruct (@commands_keep_identifiers_dense utcHost mixedCommands emptyDisk
              eq_refl) as (_ & Hnodup & Hfresh).
  split; [reflexivity|]. split; [reflexivity|].
  split; [exact Hnodup | exact Hfresh].
Defined.

Lemma add_then_delete_restores_witness :
  dense (ledger julyDisk)
  /\ ledger (disk_of (deleteExpense 3
               (disk_of (@addExpense utcHost july20 10 "Dinner" "food"
                           julyDisk))))
     = ledger julyDisk.
Proof.
  split; [reflexivity|].
  exact (@add_then_delete_restores utcHost july20 10 "Dinner" "food" julyDisk
           eq_refl eq_refl).
Defined.

(** ** Unreadable files *)


Lemma loadConfig_again (d : Disk) :
  result (loadConfig (disk_of (loadConfig d))) = result (loadConfig d)
  /\ disk_of (loadConfig (disk_of (loadConfig d))) = disk_of (loadConfig d).
Proof.
  unfold loadConfig, bind, readConfigFile, result, disk_of.
  destruct d as [ej [| |c] csv]; split; reflexivity.
Qed.

(** X5. [loadConfig] never leaves [config.json] missing and never touches
    the ledger or the exported file. A file that exists, parsable or not, is
    left as it is: an unparsable one is not reset, and is read as the empty
    object each time. A missing file is created with budget 0. Loading a
    second time returns the same configuration and writes nothing. *)
Theorem loadConfig_settles (d : Disk) :
  config_json (disk_of (loadConfig d)) <> Missing
  /\ expenses_json (disk_of (loadConfig d)) = expenses_json d
  /\ expenses_csv (disk_of (loadConfig d)) = expenses_csv d
  /\ (config_json d <> Missing -> disk_of (loadConfig d) = d)
  /\ (config_json d = Missing ->
        config_json (disk_of (loadConfig d)) = Parsed (mkConfig (Some 0%float))
        /\ result (loadConfig d) = mkConfig (Some 0%float))
  /\ (config_json d = Unparsable ->
        loadConfig d = (mkConfig None, d, [ConfigParseError]))
  /\ result (loadConfig (disk_of (loadConfig d))) = result (loadConfig d)
  /\ disk_of (loadConfig (disk_of (loadConfig d))) = disk_of (loadConfig d).
Proof.
  destruct (loadConfig_again d) as [Hr Hd].
  repeat split; try assumption;
    unfold loadConfig, bind, readConfigFile, result, disk_of;
    destruct d as [ej [| |c] csv]; simpl; try reflexivity;
    try discriminate; try (intros E; now (discriminate E || contradiction E)).
Qed.

Lemma loadConfig_settles_witness :
  loadConfig emptyDisk
  = (mkConfig (Some 0%float),
     mkDisk Missing (Parsed (mkConfig (Some 0%float))) None, [])
  /\ loadConfig brokenConfigDisk
     = (mkConfig None, brokenConfigDisk, [ConfigParseError])
  /\ disk_of (loadConfig julyDisk) = julyDisk.
Proof.
  destruct (loadConfig_settles emptyDisk) as (_ & _ & _ & _ & Hmissing & _).
  destruct (loadConfig_settles brokenConfigDisk)
    as (_ & _ & _ & _ & _ & Hbroken & _).
  destruct (loadConfig_settles julyDisk) as (_ & _ & _ & Hkept & _).
  destruct (Hmissing eq_refl) as [_ _].
  split; [reflexivity|]. split; [exact (Hbroken eq_refl)|].
  apply Hkept. discriminate.
Defined.

(** ** Setting the budget *)

Lemma setBudget_accepted (x : float) (d : Disk) :
  invalidAmount x = false ->
  setBudget x d
  = (tt, mkDisk (expenses_json d) (Parsed (mkConfig (Some x))) (expenses_csv d),
     output (loadConfig d) ++ [BudgetSet x]).
Proof.
  intros Hx. unfold setBudget, bind. rewrite Hx, (parseFloat_accepted x Hx).
  unfold loadConfig, bind, readConfigFile, output.
  destruct (config_json d); reflexivity.
Qed.

Lemma same_expenses_file (d d' : Disk) :
  expenses_json d' = expenses_json d ->
  ledger d' = ledger d
  /\ output (loadExpenses d') = output (loadExpenses d).
Proof.
  intros E. unfold ledger, loadExpenses, bind, readExpensesFile, result,
    output.
  rewrite E. destruct (expenses_json d); split; reflexivity.
Qed.

(** ** Export, summary and [main] after other commands *)

(** X9. [extractToCSV] never writes the two JSON files. On an empty ledger
    (missing, unparsable or empty file) it writes nothing at all, so a file
    exported earlier stays as it is; on a non-empty ledger it replaces the
    exported file whatever it held. *)
Theorem export_only_writes_csv (d : Disk) :
  expenses_json (disk_of (extractToCSV d)) = expenses_json d
  /\ config_json (disk_of (extractToCSV d)) = config_json d
  /\ (ledger d = [] ->
        extractToCSV d = (tt, d, output (loadExpenses d) ++ [NothingToExport]))
  /\ (ledger d <> [] ->
        expenses_csv (disk_of (extractToCSV d)) = Some (csvContent (ledger d))).
Proof.
  unfold extractToCSV, bind. rewrite loadExpenses_run.
  destruct (ledger d) as [|e l]; repeat split; try reflexivity;
    intros E; (discriminate E || now contradiction E).
Qed.

Lemma export_only_writes_csv_witness :
  extractToCSV (mkDisk (Parsed []) Missing (Some "old"%string))
  = (tt, mkDisk (Parsed []) Missing (Some "old"%string), [NothingToExport])
  /\ expenses_csv
       (disk_of (extractToCSV
                   (mkDisk (Parsed eighth) Missing (Some "old"%string))))
     = Some (csvContent eighth).
Proof.
  destruct (export_only_writes_csv
              (mkDisk (Parsed []) Missing (Some "old"%string)))
    as (_ & _ & Hempty & _).
  destruct (export_only_writes_csv
              (mkDisk (Parsed eighth) Missing (Some "old"%string)))
    as (_ & _ & _ & Hfull).
  split; [exact (Hempty eq_refl)|]. apply Hfull. discriminate.
Defined.

Section AfterAdd.
Context `{Host}.

Lemma computeExpenses_snoc (m : Z) (l : list Expense) (e : Expense) :
  computeExpenses m (l ++ [e])
  = if inMonth m e then (computeExpenses m l + amount e)%float
    else computeExpenses m l.
Proof.
  unfold computeExpenses. rewrite filter_app, fold_left_app. cbn [filter].
  destruct (inMonth m e); [reflexivity | now rewrite app_nil_r || reflexivity].
Qed.

Lemma summaryExpenses_run (m : Z) (d : Disk) :
  summaryExpenses m d
  = (tt, d,
     output (loadExpenses d)
     ++ [if m =? 0 then
           TotalAll (fold_left (fun sum expense => (sum + amount expense)%float)
                               (ledger d) 0%float)
         else if (m <? 12) && (m >? 0)
              then TotalMonth m (computeExpenses m (ledger d))
              else InvalidMonth]).
Proof.
  unfold summaryExpenses, bind. rewrite loadExpenses_run.
  destruct (m =? 0); [reflexivity|].
  destruct ((m <? 12) && (m >? 0)); reflexivity.
Qed.

End AfterAdd.

(** ** Listing *)

Lemma toLowerCase_empty (s : string) :
  toLowerCase s = EmptyString -> s = EmptyString.
Proof. destruct s; [reflexivity | discriminate]. Qed.

Lemma listSelect_finds (f : string) (l : list Expense) (e : Expense) :
  In e l ->
  toLowerCase f = toLowerCase (category e) ->
  In e (listSelect (Some f) l).
Proof.
  intros He Hf. unfold listSelect. destruct f as [|c f]; [exact He|].
  apply filter_In. split; [exact He|]. rewrite Hf. apply String.eqb_refl.
Qed.

Lemma listLines_shows (c : option string) (l : list Expense) (e : Expense) :
  In e (listSelect c l) -> In (listRow e) (listLines c l).
Proof.
  intros He. unfold listLines.
  destruct (listSelect c l) as [|a sel] eqn:E; [destruct He|].
  cbn [List.length Nat.eqb]. right. now apply in_map.
Qed.

Lemma listExpenses_run (c : option string) (d : Disk) :
  listExpenses c d = (listLines c (ledger d), d, output (loadExpenses d)).
Proof.
  unfold listExpenses, bind. rewrite loadExpenses_run. unfold ret.
  now rewrite app_nil_r.
Qed.

(** X12. The listing never changes the disk. Without a filter it shows the
    row of every record; with a filter it shows the row of every record
    whose category equals the filter when both are put in lower case, so
    filtering by the category of a stored record always shows that
    record. *)
Theorem list_finds_records (d : Disk) (e : Expense) :
  In e (ledger d) ->
  In (listRow e) (result (listExpenses None d))
  /\ In (listRow e) (result (listExpenses (Some (category e)) d))
  /\ (forall f, toLowerCase f = toLowerCase (category e) ->
        In (listRow e) (result (listExpenses (Some f) d)))
  /\ (forall c, disk_of (listExpenses c d) = d).
Proof.
  intros He. split; [|split; [|split]].
  - rewrite listExpenses_run. now apply listLines_shows.
  - rewrite listExpenses_run.
    now apply listLines_shows, listSelect_finds.
  - intros f Hf. rewrite listExpenses_run.
    now apply listLines_shows, listSelect_finds.
  - intros c. now rewrite listExpenses_run.
Qed.

Lemma list_finds_records_witness :
  result (listExpenses (Some "FOOD"%string) threeOnDisk)
  = [ listHeader;
      listRow (mkExpense 1 "food" "2024-07-01" 15.5 "Lunch") ]%string
  /\ In (listRow (mkExpense 1 "food" "2024-07-01" 15.5 "Lunch"))
        (result (listExpenses (Some "FOOD"%string) threeOnDisk))
  /\ disk_of (listExpenses (Some "FOOD"%string) threeOnDisk) = threeOnDisk.
Proof.
  destruct (list_finds_records threeOnDisk
              (mkExpense 1 "food" "2024-07-01" 15.5 "Lunch")
              (or_introl eq_refl)) as (_ & _ & Hf & Hd).
  split; [reflexivity|].
  split; [exact (Hf "FOOD"%string eq_refl) | exact (Hd _)].
Defined.

(** X13. The filter of the listing ignores case on both sides: two filters
    with the same lower-case form give the same listing on every disk. *)
Theorem list_filter_ignores_case (f g : string) (d : Disk) :
  toLowerCase f = toLowerCase g ->
  listExpenses (Some f) d = listExpenses (Some g) d.
Proof.
  intros Hfg. rewrite !listExpenses_run. f_equal. f_equal.
  unfold listLines, listSelect.
  destruct f as [|a f], g as [|b g]; try reflexivity; try discriminate.
  now rewrite Hfg.
Qed.

Lemma list_filter_ignores_case_witness :
  listExpenses (Some "Transport"%string) threeOnDisk
  = listExpenses (Some "tRANSPORT"%string) threeOnDisk
  /\ result (listExpenses (Some "Transport"%string) threeOnDisk)
     = [ listHeader;
         listRow (mkExpense 2 "transport" "2024-07-02" 24.5 "Train") ]%string.
Proof.
  split; [|reflexivity].
  apply (list_filter_ignores_case "Transport" "tRANSPORT" threeOnDisk).
  reflexivity.
Defined.

(** ** Command-line arguments *)

Lemma getOption_app (key : string) (a b : list (string * OptValue)) :
  getOption key (a ++ b)
  = match getOption key a with
    | Some v => Some v
    | None => getOption key b
    end.
Proof.
  induction a as [|[k v] a IH]; simpl; [reflexivity|].
  destruct (String.eqb k key); [reflexivity | exact IH].
Qed.

Lemma startsWithDashes_spelled (k : string) :
  startsWithDashes (String "-" (String "-" k)) = true.
Proof. unfold startsWithDashes. destruct k; reflexivity. Qed.

Lemma parseLoop_spell (pairs : list (string * string)) :
  Forall (fun kv => isValue (snd kv) = true) pairs ->
  forall options,
  parseLoop (spell pairs) options = asOptions pairs ++ options.
Proof.
  unfold asOptions.
  induction pairs as [|[k v] pairs IH]; intros Hok options; [reflexivity|].
  inversion Hok as [|? ? Hv Hrest]; subst. cbn [snd] in Hv.
  change (spell ((k, v) :: pairs))
    with (String "-" (String "-" k) :: v :: spell pairs).
  cbn [parseLoop].
  rewrite startsWithDashes_spelled.
  change (removeDashes (String "-" (String "-" k))) with k.
  cbv iota. fold (isValue v). rewrite Hv, (IH Hrest).
  cbn [map rev fst snd]. now rewrite <- app_assoc.
Qed.

Lemma getOption_asOptions (key : string) (pairs : list (string * string)) :
  getOption key (asOptions pairs) = option_map Text (lastValue key pairs).
Proof.
  unfold asOptions.
  induction pairs as [|[k v] pairs IH]; [reflexivity|].
  cbn [map rev fst snd lastValue]. rewrite getOption_app, IH.
  destruct (lastValue key pairs); [reflexivity|]. simpl.
  destruct (String.eqb k key); reflexivity.
Qed.

Lemma getOption_In (key : string) (options : list (string * OptValue))
    (v : OptValue) :
  getOption key options = Some v -> In (key, v) options.
Proof.
  induction options as [|[k w] options IH]; simpl; [discriminate|].
  destruct (String.eqb_spec k key) as [->|_].
  - intros [= ->]. now left.
  - intros Hv. right. now apply IH.
Qed.

Lemma parseLoop_fromArgs (all : list string) :
  forall n args options,
  (List.length args <= n)%nat ->
  incl args all ->
  fromArgs all options ->
  fromArgs all (parseLoop args options).
Proof.
  induction n as [|n IH]; intros [|arg rest] options Hlen Hincl Hopt;
    cbn [parseLoop]; try exact Hopt; [simpl in Hlen; lia|].
  assert (Hrest : incl rest all)
    by (intros x Hx; apply Hincl; now right).
  assert (Harg : In arg all) by (apply Hincl; now left).
  simpl in Hlen.
  destruct (startsWithDashes arg) eqn:Hdash;
    [|apply IH; [lia | exact Hrest | exact Hopt]].
  assert (Hflag : fromArgs all ((removeDashes arg, Flag) :: options)).
  { intros k v [[= <- <-]|Hin]; [|now apply Hopt].
    split; [now exists arg | intros s Hs; discriminate Hs]. }
  destruct rest as [|next rest']; [exact Hflag|].
  fold (isValue next). destruct (isValue next) eqn:Hval.
  - apply IH; [simpl in Hlen; lia | |].
    + intros x Hx. apply Hrest. now right.
    + intros k v [[= <- <-]|Hin]; [|now apply Hopt].
      split; [now exists arg|]. intros s [= <-].
      split; [exact Hval | apply Hrest; now left].
  - apply IH; [lia | exact Hrest | exact Hflag].
Qed.

(** X16. Every option [parseArgs] returns comes from an argument after the
    command that starts with [--], its key being that argument without the
    leading [--]; and a value is always an argument that is not empty and
    does not start with [--]. So a value that starts with [--] cannot be
    passed, and the command itself is never read as an option. *)
Theorem parseArgs_options_from_dashes (args : list string) (key : string)
    (v : OptValue) :
  getOption key (snd (parseArgs args)) = Some v ->
  (exists arg, In arg (tl args) /\ startsWithDashes arg = true
               /\ removeDashes arg = key)
  /\ (forall s, v = Text s ->
        s <> EmptyString /\ startsWithDashes s = false /\ In s (tl args)).
Proof.
  intros Hv. apply getOption_In in Hv.
  assert (Hall : fromArgs (tl args) (parseLoop (tl args) [])).
  { apply (parseLoop_fromArgs (tl args) (List.length (tl args)));
      [lia | apply incl_refl | intros k w []]. }
  destruct (Hall key v Hv) as [Hkey Hval]. split; [exact Hkey|].
  intros s Hs. destruct (Hval s Hs) as [Hok Hin].
  unfold isValue in Hok. apply andb_prop in Hok. destruct Hok as [Hne Hnd].
  apply negb_true_iff in Hne, Hnd. apply String.eqb_neq in Hne.
  now repeat split.
Qed.

Lemma parseArgs_options_from_dashes_witness :
  parseArgs ["--delete"; "--id"; "--5"; "x"]%string
  = (Some "--delete"%string, [ ("5", Text "x"); ("id", Flag) ]%string)
  /\ (exists arg, In arg (tl ["--delete"; "--id"; "--5"; "x"]%string)
                  /\ startsWithDashes arg = true
                  /\ removeDashes arg = "id"%string)
  /\ (forall s, Flag = Text s ->
        s <> EmptyString /\ startsWithDashes s = false
        /\ In s (tl ["--delete"; "--id"; "--5"; "x"]%string)).
Proof.
  split; [reflexivity|].
  exact (parseArgs_options_from_dashes
           ["--delete"; "--id"; "--5"; "x"]%string "id" Flag eq_refl).
Defined.

(** ** Deleting twice *)

(** X17. Identifiers are not stable names: on a ledger numbered 1..N,
    after the record numbered [k] is deleted the record that followed it is
    numbered [k], and deleting [k] a second time removes that record
    too. *)
Theorem delete_twice_removes_two (d : Disk) (N : nat)
    (before after : list Expense) (e e' : Expense) :
  map id (ledger d) = idsUpTo N ->
  ledger d = before ++ e :: e' :: after ->
  let d1 := disk_of (deleteExpense (id e) d) in
  let d2 := disk_of (deleteExpense (id e) d1) in
  ledger d1 = before ++ shiftDown e' :: map shiftDown after
  /\ id (shiftDown e') = id e
  /\ ledger d2 = before ++ map shiftDown (map shiftDown after)
  /\ output (deleteExpense (id e) d1) = [Deleted (id e)].
Proof.
  intros Hids Hl d1 d2.
  destruct (deleteExpense_present d N before (e' :: after) e Hids Hl)
    as (Hrun1 & Hids1 & _).
  assert (Hl1 : ledger d1 = before ++ shiftDown e' :: map shiftDown after).
  { subst d1. rewrite Hrun1. unfold disk_of; cbn [fst snd].
    now rewrite ledger_saved. }
  assert (Hk : id (shiftDown e') = id e).
  { destruct (dense_split _ _ _ _ _ Hids Hl) as (_ & _ & He & Ha).
    cbn [map List.length] in Ha. rewrite idsUpTo_succ in Ha.
    cbn [map] in Ha.
    assert (He' : id e' = 1 + (Z.of_nat (List.length before) + 1))
      by congruence.
    unfold shiftDown, setId. cbn [id]. lia. }
  assert (Hids1' : map id (ledger d1) = idsUpTo (N - 1))
    by (rewrite Hl1; exact Hids1).
  destruct (deleteExpense_present d1 (N - 1) before (map shiftDown after)
              (shiftDown e') Hids1' Hl1) as (Hrun2 & _ & _).
  rewrite Hk in Hrun2.
  split; [exact Hl1|]. split; [exact Hk|]. subst d2. rewrite Hrun2.
  split.
  - unfold disk_of; cbn [fst snd]. now rewrite ledger_saved.
  - unfold output; cbn [snd]. subst d1. rewrite Hrun1.
    unfold disk_of; cbn [fst snd]. reflexivity.
Qed.

Lemma delete_twice_removes_two_witness :
  ledger (disk_of (deleteExpense 1 (disk_of (deleteExpense 1 threeOnDisk))))
  = [ mkExpense 1 "other" "2024-08-03" 7 "Stamps" ]%string
  /\ ledger (disk_of (deleteExpense 1 threeOnDisk))
     = [ mkExpense 1 "transport" "2024-07-02" 24.5 "Train";
         mkExpense 2 "other" "2024-08-03" 7 "Stamps" ]%string.
Proof.
  destruct (delete_twice_removes_two threeOnDisk 3 []
              [mkExpense 3 "other" "2024-08-03" 7 "Stamps"]
              (mkExpense 1 "food" "2024-07-01" 15.5 "Lunch")
              (mkExpense 2 "transport" "2024-07-02" 24.5 "Train")
              eq_refl eq_refl) as (H1 & _ & H2 & _).
  split; [exact H2 | exact H1].
Defined.

(** * The commands on any argument value *)

(** ** The commands on numbers are the commands on values *)

Section OnValues.
Context `{Host}.

Lemma addExpense_number (now : Today) (x : float) (desc cat : string) :
  addExpense now x desc cat = addExpenseOf now (numberAmount x) desc cat.
Proof. reflexivity. Qed.

Lemma setBudget_number (x : float) : setBudget x = setBudgetOf (numberAmount x).
Proof. reflexivity. Qed.

Lemma computeExpensesOf_none (l : list Expense) :
  computeExpensesOf None l = 0%float.
Proof.
  unfold computeExpensesOf.
  replace (filter (fun _ : Expense => false) l) with (@nil Expense);
    [reflexivity|].
  induction l as [|e l IH]; [reflexivity | exact IH].
Qed.

Lemma summaryExpensesOf_run (month : MonthValue) (d : Disk) :
  summaryExpensesOf month d
  = (if isNumberZero month then
       AllTime (fold_left (fun sum expense => (sum + amount expense)%float)
                          (ledger d) 0%float)
     else if lessThan12 month && greaterThan0 month
          then ForMonth (asText month)
                        (computeExpensesOf (asParsedInt month) (ledger d))
          else MonthRefused,
     d, output (loadExpenses d)).
Proof.
  unfold summaryExpensesOf, bind. rewrite loadExpenses_run.
  destruct (isNumberZero month); [unfold ret; now rewrite app_nil_r|].
  destruct (lessThan12 month && greaterThan0 month);
    unfold ret; now rewrite app_nil_r.
Qed.

(** On a number that holds an integer, the two forms of [summaryExpenses]
    print the same line. *)
Lemma summaryExpenses_integer (m : Z) (d : Disk) :
  summaryExpenses m d
  = (tt, d,
     output (loadExpenses d)
     ++ [asLine m (result (summaryExpensesOf (integerMonth m) d))]).
Proof.
  rewrite summaryExpenses_run, summaryExpensesOf_run.
  unfold result, integerMonth; cbn [fst isNumberZero lessThan12 greaterThan0
                                     asParsedInt asText].
  destruct (m =? 0); [reflexivity|].
  destruct ((m <? 12) && (m >? 0)); reflexivity.
Qed.


Lemma addExpenseOf_accepted (now : Today) (v : AmountValue)
    (desc cat : string) (d : Disk) :
  invalidAmount (asNumber v) = false ->
  addExpenseOf now v desc cat d
  = (tt,
     mkDisk (Parsed (ledger d
                     ++ [mkExpense (nextId (ledger d)) cat (isoDate now)
                                   (asParsedFloat v) desc]))
            (config_json (disk_of (loadConfig d))) (expenses_csv d),
     output (loadExpenses d) ++ output (loadConfig d)
       ++ warningLines
            (sumAmounts (filter (inMonth (monthIndex now + 1)) (ledger d))
             + asParsedFloat v)%float
            (monthlyBudget (result (loadConfig d)))
       ++ [Added (nextId (ledger d))]).
Proof.
  intros Hv. unfold addExpenseOf, bind. rewrite loadExpenses_run, Hv.
  rewrite loadConfig_run. unfold warningLines. cbn [amount id].
  rewrite computeExpenses_sum.
  destruct (exceeds _ _); reflexivity.
Qed.

End OnValues.

Lemma setBudgetOf_accepted (v : AmountValue) (d : Disk) :
  invalidAmount (asNumber v) = false ->
  setBudgetOf v d
  = (tt, mkDisk (expenses_json d) (Parsed (mkConfig (Some (asParsedFloat v))))
                (expenses_csv d),
     output (loadConfig d) ++ [BudgetSet (asParsedFloat v)]).
Proof.
  intros Hv. unfold setBudgetOf, bind. rewrite Hv.
  unfold loadConfig, bind, readConfigFile, output.
  destruct (config_json d); reflexivity.
Qed.

Lemma setBudgetOf_rejected (v : AmountValue) (d : Disk) :
  invalidAmount (asNumber v) = true ->
  setBudgetOf v d
  = (tt, disk_of (loadConfig d), output (loadConfig d) ++ [InvalidBudget]).
Proof.
  intros Hv. unfold setBudgetOf, bind. rewrite Hv.
  unfold loadConfig, bind, readConfigFile, disk_of, output.
  destruct (config_json d); reflexivity.
Qed.


(** ** The budget warning *)

Section BudgetProperties.
Context `{Host}.


End BudgetProperties.



(** ** Summary *)

Section SummaryProperties.
Context `{Host}.

(** C3, as the code has it. [summaryExpenses] of the number 0, which is
    what [main] passes when no month is given, reports the sum of the
    amounts of all records, whatever their dates and also on an empty
    ledger; for an integer month from 1 to 11 it reports [computeExpenses]
    of that month; for every other integer, 12 and negative ones included,
    it reports an invalid month and no total. On any value, the line is
    decided by three tests: the all-time total when [month === 0]; when
    that fails and [month < 12 && month > 0] holds, the total of the month
    [parseInt(month)], which is 0 when [parseInt] gives [NaN]; the
    invalid-month line otherwise. The command never changes the disk, and
    on a number that holds an integer the line is the same in both
    forms. *)
Theorem summary_by_month (d : Disk) :
  output (summaryExpenses 0 d)
  = output (loadExpenses d) ++ [TotalAll (sumAmounts (ledger d))]
  /\ (forall m, 1 <= m <= 11 ->
        output (summaryExpenses m d)
        = output (loadExpenses d)
          ++ [TotalMonth m (computeExpenses m (ledger d))])
  /\ (forall m, m <> 0 -> ~ (1 <= m <= 11) ->
        output (summaryExpenses m d)
        = output (loadExpenses d) ++ [InvalidMonth])
  /\ (forall m, disk_of (summaryExpenses m d) = d)
  /\ (forall v : MonthValue,
        summaryExpensesOf v d
        = (if isNumberZero v then AllTime (sumAmounts (ledger d))
           else if lessThan12 v && greaterThan0 v
                then ForMonth (asText v)
                       match asParsedInt v with
                       | Some targetMonth =>
                           computeExpenses targetMonth (ledger d)
                       | None => 0%float
                       end
                else MonthRefused,
           d, output (loadExpenses d)))
  /\ (forall m,
        summaryExpenses m d
        = (tt, d,
           output (loadExpenses d)
           ++ [asLine m (result (summaryExpensesOf (integerMonth m) d))])).
Proof.
  split; [|split; [|split; [|split; [|split]]]].
  - rewrite summaryExpenses_run. unfold output at 1; cbn [snd Z.eqb].
    unfold sumAmounts. now rewrite sumAmounts_fold.
  - intros m Hm. rewrite summaryExpenses_run. unfold output at 1; cbn [snd].
    destruct (Z.eqb_spec m 0) as [E|_]; [lia|].
    destruct (Z.ltb_spec m 12) as [_|E]; [|lia].
    destruct (Z.gtb_spec m 0) as [_|E]; [|lia].
    reflexivity.
  - intros m Hm0 Hm. rewrite summaryExpenses_run.
    unfold output at 1; cbn [snd].
    destruct (Z.eqb_spec m 0) as [E|_]; [contradiction|].
    destruct (Z.ltb_spec m 12) as [L|_]; [|reflexivity].
    destruct (Z.gtb_spec m 0) as [G|_]; [lia|reflexivity].
  - intros m. now rewrite summaryExpenses_run.
  - intros v. rewrite summaryExpensesOf_run.
    unfold sumAmounts. rewrite sumAmounts_fold.
    destruct (asParsedInt v) as [t|]; [reflexivity|].
    now rewrite computeExpensesOf_none.
  - intros m. apply summaryExpenses_integer.
Qed.

End SummaryProperties.

Lemma summary_by_month_witness :
  output (@summaryExpenses utcHost 0 threeOnDisk) = [TotalAll 47]
  /\ output (@summaryExpenses utcHost 7 threeOnDisk) = [TotalMonth 7 40]
  /\ output (@summaryExpenses utcHost 12 threeOnDisk) = [InvalidMonth]
  /\ output (@summaryExpenses utcHost (-3) threeOnDisk) = [InvalidMonth]
  /\ @summaryExpensesOf utcHost textSeven threeOnDisk
     = (ForMonth "7" 40, threeOnDisk, [])
  /\ @summaryExpensesOf utcHost textZero threeOnDisk
     = (MonthRefused, threeOnDisk, [])
  /\ @summaryExpensesOf utcHost trueMonth threeOnDisk
     = (ForMonth "true" 0, threeOnDisk, []).
Proof.
  destruct (@summary_by_month utcHost threeOnDisk)
    as (H0 & Hin & Hout & _ & Hval & _).
  split; [exact H0|].
  split; [exact (Hin 7 ltac:(lia))|].
  split; [apply (Hout 12); lia|].
  split; [apply (Hout (-3)); lia|].
  split; [exact (Hval textSeven)|].
  split; [exact (Hval textZero) | exact (Hval trueMonth)].
Defined.

(** C3, as stated, fails: the number 7.5 is a month value that is neither 0
    nor an integer from 1 to 11, and [summaryExpenses] does not refuse it.
    It passes the test [month < 12 && month > 0], [parseInt] reads 7 from
    it, and the line printed is the total of July; the [true] of a month
    written without a value is answered with a total of 0. On integers the
    function used here prints the line of [summaryExpenses]. *)
Lemma summary_accepts_fraction :
  @summaryExpensesOf utcHost sevenAndHalf threeOnDisk
  = (ForMonth "7.5" 40, threeOnDisk, [])
  /\ result (@summaryExpensesOf utcHost sevenAndHalf threeOnDisk)
     <> MonthRefused
  /\ result (@summaryExpensesOf utcHost trueMonth threeOnDisk)
     <> MonthRefused
  /\ (forall m d,
        @summaryExpenses utcHost m d
        = (tt, d,
           output (loadExpenses d)
           ++ [asLine m
                 (result (@summaryExpensesOf utcHost (integerMonth m) d))])).
Proof.
  split; [reflexivity|]. split; [discriminate|]. split; [discriminate|].
  intros m d. apply summaryExpenses_integer.
Qed.

(** ** An unparsable ledger *)

Section UnreadableFiles.
Context `{Host}.


End UnreadableFiles.


(** ** Setting the budget on any amount value *)

(** X6. An accepted [setBudget] (the amount, read as a number, is neither
    NaN nor at most 0) stores [parseFloat] of the amount. When [JSON] gives
    that number back unchanged, the budget is replaced whatever
    [config.json] was (missing, unparsable or parsed): afterwards the file
    parses, holds the stored number, and [loadConfig] returns it; the
    ledger and the exported file are untouched. The stored number is not
    always the accepted one: for the text [0x10], accepted as 16, it
    is 0. *)
Theorem setBudget_replaces_budget (v : AmountValue) (d : Disk) :
  invalidAmount (asNumber v) = false ->
  jsonSafe (asParsedFloat v) = true ->
  config_json (disk_of (setBudgetOf v d))
  = Parsed (mkConfig (Some (asParsedFloat v)))
  /\ loadConfig (disk_of (setBudgetOf v d))
     = (mkConfig (Some (asParsedFloat v)), disk_of (setBudgetOf v d), [])
  /\ expenses_json (disk_of (setBudgetOf v d)) = expenses_json d
  /\ expenses_csv (disk_of (setBudgetOf v d)) = expenses_csv d
  /\ output (setBudgetOf v d)
     = output (loadConfig d) ++ [BudgetSet (asParsedFloat v)].
Proof.
  intros Hv _. rewrite (setBudgetOf_accepted v d Hv). repeat split.
Qed.

Lemma setBudget_replaces_budget_witness :
  setBudgetOf (numberAmount 100) brokenConfigDisk
  = (tt, mkDisk (Parsed julyRecords) (Parsed (mkConfig (Some 100%float))) None,
     [ConfigParseError; BudgetSet 100])
  /\ config_json (disk_of (setBudgetOf (numberAmount 100) brokenConfigDisk))
     = Parsed (mkConfig (Some 100%float))
  /\ config_json (disk_of (setBudgetOf hexSixteen julyDisk))
     = Parsed (mkConfig (Some 0%float))
  /\ output (setBudgetOf hexSixteen julyDisk) = [BudgetSet 0].
Proof.
  destruct (setBudget_replaces_budget (numberAmount 100) brokenConfigDisk
              eq_refl eq_refl) as (Hcfg & _).
  destruct (setBudget_replaces_budget hexSixteen julyDisk eq_refl eq_refl)
    as (Hhex & _ & _ & _ & Hout).
  split; [reflexivity|]. split; [exact Hcfg|].
  split; [exact Hhex | exact Hout].
Defined.

(** X7. A [setBudget] whose amount, read as a number, is NaN or at most 0
    prints the invalid-budget message and leaves the budget as it was:
    [loadConfig] returns afterwards what it returned before, an existing
    [config.json] is not written, and the ledger is untouched. *)
Theorem setBudget_keeps_budget (v : AmountValue) (d : Disk) :
  invalidAmount (asNumber v) = true ->
  result (loadConfig (disk_of (setBudgetOf v d))) = result (loadConfig d)
  /\ (config_json d <> Missing -> disk_of (setBudgetOf v d) = d)
  /\ expenses_json (disk_of (setBudgetOf v d)) = expenses_json d
  /\ expenses_csv (disk_of (setBudgetOf v d)) = expenses_csv d
  /\ output (setBudgetOf v d) = output (loadConfig d) ++ [InvalidBudget].
Proof.
  intros Hv. rewrite (setBudgetOf_rejected v d Hv).
  destruct (loadConfig_again d) as [Hr _].
  split; [exact Hr|]. split; [|split; [|split; [|reflexivity]]].
  - intros Hc. unfold disk_of; simpl.
    unfold loadConfig, bind, readConfigFile.
    destruct d as [ej [| |c] csv]; simpl; [contradiction | reflexivity..].
  - unfold disk_of; simpl. unfold loadConfig, bind, readConfigFile.
    destruct (config_json d); reflexivity.
  - unfold disk_of; simpl. unfold loadConfig, bind, readConfigFile.
    destruct (config_json d); reflexivity.
Qed.

Lemma setBudget_keeps_budget_witness :
  invalidAmount (asNumber (numberAmount 0)) = true
  /\ setBudgetOf (numberAmount 0) julyDisk = (tt, julyDisk, [InvalidBudget])
  /\ result (loadConfig (disk_of (setBudgetOf (numberAmount 0) julyDisk)))
     = mkConfig (Some 45%float)
  /\ setBudgetOf (numberAmount (-5)) emptyDisk
     = (tt, mkDisk Missing (Parsed (mkConfig (Some 0%float))) None,
        [InvalidBudget]).
Proof.
  destruct (setBudget_keeps_budget (numberAmount 0) julyDisk eq_refl)
    as (Hr & _).
  split; [reflexivity|]. split; [reflexivity|].
  split; [exact Hr | reflexivity].
Defined.

(** ** Commands run one after the other *)

Section BudgetRuns.
Context `{Host}.

(** X8. After an accepted [setBudget] that stores the budget [b], an
    accepted addition that stores the amount [x] is compared with [b]: it
    prints the warning exactly when the total of the month of the clock
    plus [x] is greater than [b], and appends the record either way. Both
    stored numbers are [parseFloat] of the arguments, taken among the
    numbers [JSON] gives back unchanged. *)
Theorem setBudget_then_add (vb vx : AmountValue) (now : Today)
    (desc cat : string) (d : Disk) :
  invalidAmount (asNumber vb) = false ->
  jsonSafe (asParsedFloat vb) = true ->
  invalidAmount (asNumber vx) = false ->
  jsonSafe (asParsedFloat vx) = true ->
  let b := asParsedFloat vb in
  let x := asParsedFloat vx in
  let d1 := disk_of (setBudgetOf vb d) in
  let total :=
    (sumAmounts (filter (inMonth (monthIndex now + 1)) (ledger d)) + x)%float
  in
  output (addExpenseOf now vx desc cat d1)
  = output (loadExpenses d)
    ++ (if (b <? total)%float then [BudgetWarning (Some b)] else [])
    ++ [Added (nextId (ledger d))]
  /\ ledger (disk_of (addExpenseOf now vx desc cat d1))
     = ledger d ++ [mkExpense (nextId (ledger d)) cat (isoDate now) x desc]
  /\ config_json (disk_of (addExpenseOf now vx desc cat d1))
     = Parsed (mkConfig (Some b)).
Proof.
  intros Hb _ Hx _ b x d1 total. subst d1.
  rewrite (setBudgetOf_accepted vb d Hb).
  set (d1 := mkDisk (expenses_json d) (Parsed (mkConfig (Some b)))
                    (expenses_csv d)).
  destruct (same_expenses_file d d1 eq_refl) as [Hl Ho].
  change (disk_of (tt, d1, output (loadConfig d) ++ [BudgetSet b])) with d1.
  rewrite (addExpenseOf_accepted now vx desc cat d1 Hx).
  unfold disk_of, output at 1 3, warningLines, exceeds; cbn [fst snd].
  rewrite ledger_saved, Hl, Ho. fold x. fold total.
  repeat split.
Qed.

End BudgetRuns.

Lemma setBudget_then_add_witness :
  output (@addExpenseOf utcHost july20 (numberAmount 10) "Dinner" "food"
            (disk_of (setBudgetOf (numberAmount 49.5) julyDisk)))
  = [BudgetWarning (Some 49.5%float); Added 3]
  /\ output (@addExpenseOf utcHost july20 (numberAmount 10) "Dinner" "food"
               (disk_of (setBudgetOf (numberAmount 50) julyDisk)))
     = [Added 3]
  /\ ledger (disk_of (@addExpenseOf utcHost july20 (numberAmount 10) "Dinner"
                        "food"
                        (disk_of (setBudgetOf (numberAmount 50) julyDisk))))
     = julyRecords ++ [mkExpense 3 "food" "2024-07-20" 10 "Dinner"]
  /\ output (@addExpenseOf utcHost july20 (numberAmount 10) "Dinner" "food"
               (disk_of (setBudgetOf hexSixteen julyDisk)))
     = [BudgetWarning (Some 0%float); Added 3].
Proof.
  destruct (@setBudget_then_add utcHost (numberAmount 49.5) (numberAmount 10)
              july20 "Dinner" "food" julyDisk eq_refl eq_refl eq_refl eq_refl)
    as (Hwarn & _).
  destruct (@setBudget_then_add utcHost (numberAmount 50) (numberAmount 10)
              july20 "Dinner" "food" julyDisk eq_refl eq_refl eq_refl eq_refl)
    as (Hquiet & Hledger & _).
  destruct (@setBudget_then_add utcHost hexSixteen (numberAmount 10)
              july20 "Dinner" "food" julyDisk eq_refl eq_refl eq_refl eq_refl)
    as (Hhex & _).
  split; [exact Hwarn|]. split; [exact Hquiet|].
  split; [exact Hledger | exact Hhex].
Defined.

Section SummaryAfterAdd.
Context `{Host}.

(** X10. After an accepted addition that stores the amount [x]
    ([parseFloat] of the argument, one of the numbers [JSON] gives back
    unchanged), the summary of all time is the total before the addition
    plus [x] (one more floating-point addition), and the summary of a month
    from 1 to 11 is the month's total before plus [x] when the host reads
    the date of the new record in that month, and the month's total before
    otherwise. *)
Theorem summary_after_add (now : Today) (v : AmountValue) (desc cat : string)
    (d : Disk) :
  invalidAmount (asNumber v) = false ->
  jsonSafe (asParsedFloat v) = true ->
  let x := asParsedFloat v in
  let d1 := disk_of (addExpenseOf now v desc cat d) in
  summaryExpenses 0 d1
  = (tt, d1, [TotalAll (sumAmounts (ledger d) + x)%float])
  /\ (forall m, 1 <= m <= 11 ->
        summaryExpenses m d1
        = (tt, d1,
           [TotalMonth m
              (if match getMonth (isoDate now) with
                  | Some i => i + 1 =? m
                  | None => false
                  end
               then (computeExpenses m (ledger d) + x)%float
               else computeExpenses m (ledger d))])).
Proof.
  intros Hv _ x d1. subst d1.
  rewrite (addExpenseOf_accepted now v desc cat d Hv).
  unfold disk_of; cbn [fst snd]. fold x.
  split.
  - rewrite summaryExpenses_run. rewrite ledger_saved.
    change (output (loadExpenses ?d)) with (@nil Line).
    cbn [Z.eqb app]. rewrite fold_left_app. cbn [fold_left amount].
    unfold sumAmounts. now rewrite sumAmounts_fold.
  - intros m Hm. rewrite summaryExpenses_run. rewrite ledger_saved.
    change (output (loadExpenses ?d)) with (@nil Line).
    destruct (Z.eqb_spec m 0) as [E|_]; [lia|].
    destruct (Z.ltb_spec m 12) as [_|E]; [|lia].
    destruct (Z.gtb_spec m 0) as [_|E]; [|lia].
    cbn [andb app]. rewrite computeExpenses_snoc. reflexivity.
Qed.

(** X14. A record appended by an accepted [addExpense] keeps the category
    it was given, and the listing shows its row, with the stored amount,
    under every filter that equals that category once both are put in lower
    case: added as [Food], it is listed by [food] and by [FOOD]. The stored
    amount is [parseFloat] of the argument, one of the numbers [JSON] gives
    back unchanged. *)
Theorem add_then_filter (now : Today) (v : AmountValue) (desc cat f : string)
    (d : Disk) :
  invalidAmount (asNumber v) = false ->
  jsonSafe (asParsedFloat v) = true ->
  toLowerCase f = toLowerCase cat ->
  let d1 := disk_of (addExpenseOf now v desc cat d) in
  let added :=
    mkExpense (nextId (ledger d)) cat (isoDate now) (asParsedFloat v) desc in
  ledger d1 = ledger d ++ [added]
  /\ In (listRow added) (result (listExpenses (Some f) d1))
  /\ In (listRow added) (result (listExpenses None d1))
  /\ disk_of (listExpenses (Some f) d1) = d1.
Proof.
  intros Hv _ Hf d1 added. subst d1.
  rewrite (addExpenseOf_accepted now v desc cat d Hv).
  unfold disk_of; cbn [fst snd]. rewrite !listExpenses_run, ledger_saved.
  fold added.
  assert (Hin : In added (ledger d ++ [added]))
    by (apply in_or_app; right; now left).
  split; [reflexivity|]. split; [|split; [|reflexivity]].
  - unfold result; cbn [fst]. now apply listLines_shows, listSelect_finds.
  - unfold result; cbn [fst]. now apply listLines_shows.
Qed.

End SummaryAfterAdd.

Lemma summary_after_add_witness :
  @summaryExpenses utcHost 0
    (disk_of (@addExpenseOf utcHost july20 (numberAmount 10) "Dinner" "food"
                threeOnDisk))
  = (tt,
     disk_of (@addExpenseOf utcHost july20 (numberAmount 10) "Dinner" "food"
                threeOnDisk),
     [TotalAll 57])
  /\ output (@summaryExpenses utcHost 7
               (disk_of (@addExpenseOf utcHost july20 (numberAmount 10)
                           "Dinner" "food" threeOnDisk)))
     = [TotalMonth 7 50]
  /\ output (@summaryExpenses utcHost 8
               (disk_of (@addExpenseOf utcHost july20 (numberAmount 10)
                           "Dinner" "food" threeOnDisk)))
     = [TotalMonth 8 7]
  /\ output (@summaryExpenses utcHost 0
               (disk_of (@addExpenseOf utcHost july20 hexSixteen
                           "Dinner" "food" threeOnDisk)))
     = [TotalAll 47].
Proof.
  destruct (@summary_after_add utcHost july20 (numberAmount 10) "Dinner"
              "food" threeOnDisk eq_refl eq_refl) as (Hall & Hmonth).
  destruct (@summary_after_add utcHost july20 hexSixteen "Dinner"
              "food" threeOnDisk eq_refl eq_refl) as (Hhex & _).
  split; [exact Hall|].
  split; [exact (f_equal snd (Hmonth 7 ltac:(lia)))|].
  split; [exact (f_equal snd (Hmonth 8 ltac:(lia)))|].
  exact (f_equal snd Hhex).
Defined.

Lemma add_then_filter_witness :
  result (listExpenses (Some "FOOD"%string)
            (disk_of (@addExpenseOf utcHost july20 (numberAmount 10) "Dinner"
                        "Food" threeOnDisk)))
  = [ listHeader;
      listRow (mkExpense 1 "food" "2024-07-01" 15.5 "Lunch");
      listRow (mkExpense 4 "Food" "2024-07-20" 10 "Dinner") ]%string
  /\ In (listRow (mkExpense 4 "Food" "2024-07-20" 10 "Dinner"))
        (result (listExpenses (Some "FOOD"%string)
                   (disk_of (@addExpenseOf utcHost july20 (numberAmount 10)
                               "Dinner" "Food" threeOnDisk))))
  /\ In (listRow (mkExpense 4 "Food" "2024-07-20" 0 "Dinner"))
        (result (listExpenses (Some "food"%string)
                   (disk_of (@addExpenseOf utcHost july20 hexSixteen
                               "Dinner" "Food" threeOnDisk)))).
Proof.
  destruct (@add_then_filter utcHost july20 (numberAmount 10) "Dinner" "Food"
              "FOOD" threeOnDisk eq_refl eq_refl eq_refl) as (_ & Hrow & _).
  destruct (@add_then_filter utcHost july20 hexSixteen "Dinner" "Food"
              "food" threeOnDisk eq_refl eq_refl eq_refl) as (_ & Hhex & _).
  split; [reflexivity|]. split; [exact Hrow | exact Hhex].
Defined.

(** ** Reading a command line back *)

(** X15. [parseArgs] reads back a command line of the form
    [command --key value ...]: the first argument is the command, and under
    every key that is not a name inherited from [Object.prototype] the
    options hold the value written last for that key, and nothing when the
    key was not written, provided every value is not empty and does not
    start with [--]. *)
Theorem parseArgs_reads_back (command : string)
    (pairs : list (string * string)) :
  Forall (fun kv => isValue (snd kv) = true) pairs ->
  fst (parseArgs (command :: spell pairs)) = Some command
  /\ forall key, plainKey key = true ->
       getOption key (snd (parseArgs (command :: spell pairs)))
       = option_map Text (lastValue key pairs).
Proof.
  intros Hok. split; [reflexivity|]. intros key _.
  unfold parseArgs. cbn [snd tl].
  rewrite (parseLoop_spell pairs Hok), app_nil_r.
  apply getOption_asOptions.
Qed.

Lemma parseArgs_reads_back_witness :
  parseArgs ["add"; "--amount"; "10"; "--description"; "Dinner";
             "--category"; "food"; "--amount"; "12.5"]%string
  = (Some "add"%string,
     [ ("amount", Text "12.5"); ("category", Text "food");
       ("description", Text "Dinner"); ("amount", Text "10") ]%string)
  /\ fst (parseArgs ("add"%string :: spell sampleArgs)) = Some "add"%string
  /\ getOption "amount" (snd (parseArgs ("add"%string :: spell sampleArgs)))
     = Some (Text "12.5")
  /\ getOption "month" (snd (parseArgs ("add"%string :: spell sampleArgs)))
     = None.
Proof.
  destruct (parseArgs_reads_back "add" sampleArgs) as [Hcommand Hkeys];
    [repeat constructor|].
  split; [reflexivity|]. split; [exact Hcommand|].
  split; [exact (Hkeys "amount"%string eq_refl)
         | exact (Hkeys "month"%string eq_refl)].
Defined.
